(** * SkyPulse: news aggregation, rate cache and broadcast dispatcher

    A shallow embedding of the parts of the SkyPulse bot that merge RSS
    feeds (news.py, rss_service.py), cache currency rates
    (finance_service.py) and deliver the daily forecast (bot.py), followed
    by the properties proved about them. *)

From Stdlib Require Import ZArith List Lia String Ascii Bool.
From stdpp Require Import base list gmap sets sorting.

Local Open Scope Z_scope.

(** ** Python strings *)

(** A Python [str] is a sequence of Unicode code points. *)
Module Py.

Abbreviation str := (list N).

(** An ASCII literal as a [str]. *)
Definition lit (s : string) : str :=
  List.map N_of_ascii (list_ascii_of_string s).

(** [str.isspace] for one code point: the characters [str.strip()] removes. *)
Definition isspace (c : N) : bool :=
  ((9 <=? c) && (c <=? 13) || (28 <=? c) && (c <=? 32)
   || (c =? 133) || (c =? 160) || (c =? 5760)
   || (8192 <=? c) && (c <=? 8202)
   || (c =? 8232) || (c =? 8233) || (c =? 8239) || (c =? 8287)
   || (c =? 12288))%N.

Fixpoint lstrip (s : str) : str :=
  match s with
  | [] => []
  | c :: r => if isspace c then lstrip r else s
  end.

Definition rstrip (s : str) : str := rev (lstrip (rev s)).

(** [s.strip()] *)
Definition strip (s : str) : str := rstrip (lstrip s).

(** [s.replace(old, new)] for one-character [old] and [new]. *)
Definition replace_char (old new : N) (s : str) : str :=
  List.map (fun c => if (c =? old)%N then new else c) s.

(** [str.lower] restricted to the ASCII letters; it agrees with Python's
    [str.lower] on every string of ASCII characters. The aggregation is
    stated over an arbitrary [lower]; this one instantiates it in examples. *)
Definition lower_ascii (s : str) : str :=
  List.map (fun c => if ((65 <=? c) && (c <=? 90))%N then (c + 32)%N else c) s.

(** [sep.join(parts)] *)
Fixpoint join (sep : str) (parts : list str) : str :=
  match parts with
  | [] => []
  | [p] => p
  | p :: rest => p ++ sep ++ join sep rest
  end.

(** Decimal rendering of a natural number, as [str(i)] and [f"{i}"] give. *)
Definition digit_char (d : nat) : N := (48 + N.of_nat d)%N.

Fixpoint decimal_aux (fuel n : nat) (acc : str) : str :=
  match fuel with
  | O => acc
  | S fuel' =>
      let acc' := digit_char (n mod 10) :: acc in
      if (n / 10 =? 0)%nat then acc' else decimal_aux fuel' (n / 10) acc'
  end.

Definition decimal (n : nat) : str := decimal_aux (S n) n [].

(** [f"{n:02d}"] for a non-negative [n]. *)
Definition pad2 (n : Z) : str :=
  let d := decimal (Z.to_nat n) in
  if (n <? 10) then 48%N :: d else d.

End Py.

(** ** rss_service.py and news.py *)

Module News.
Import Py.

(** What [time.mktime(published_parsed)] gives: a whole number of
    seconds, or an exception for a date it rejects. *)
Inductive mktime := Seconds (t : Z) | MktimeError.

(** One feed entry as [feedparser] hands it over; every key may be missing.
    [e_published_parsed] is the value of ["published_parsed"], given by what
    [time.mktime] makes of it. *)
Record raw_entry := {
  e_title : option str;
  e_link : option str;
  e_published : option str;
  e_published_parsed : option mktime
}.

(** What [session.get(url, timeout=10)] followed by [feedparser.parse] can
    yield: an exception (timeout, connection error, unreadable body) or a
    response with a status and the parsed entries. *)
Inductive response :=
  | NetError
  | Http (status : Z) (entries : list raw_entry).

(** The dict built for every entry; [source_name] is absent until
    [_fetch_source] stamps it. *)
Record article := {
  title : str;
  link : str;
  published : str;
  timestamp : Z;
  source_name : option str
}.

Global Instance article_eq_dec : EqDecision article.
Proof. solve_decision. Defined.

Definition no_title : str :=
  [1041; 1077; 1079; 32; 1085; 1072; 1079; 1074; 1072; 1085; 1080; 1103]%N.
Definition unknown_date : str :=
  [1053; 1077; 1080; 1079; 1074; 1077; 1089; 1090; 1085; 1086]%N.

(** [time.mktime] raises on the date of the entry. *)
Definition mktime_raises (e : raw_entry) : bool :=
  match e_published_parsed e with
  | Some MktimeError => true
  | _ => false
  end.

(** The dict appended for an entry whose date, if it has one, [time.mktime]
    accepts. *)
Definition parse_entry (e : raw_entry) : article :=
  {| title := default no_title (e_title e);
     link := default (lit "#") (e_link e);
     published := default unknown_date (e_published e);
     timestamp := match e_published_parsed e with
                  | Some (Seconds t) => t
                  | _ => 0
                  end;
     source_name := None |}.

(** [RSSService.fetch_feed]: [None] on an exception, on a status other
    than 200, and when [time.mktime] raises on one of the first ten entries
    (the loop is inside the [try]); else the first ten entries. *)
Definition fetch_feed (get : str -> response) (url : str) : option (list article) :=
  match get url with
  | NetError => None
  | Http status entries =>
      if negb (status =? 200) then None
      else if existsb mktime_raises (firstn 10 entries) then None
      else Some (List.map parse_entry (firstn 10 entries))
  end.

(** Truth value of a Python list. *)
Definition nonempty {A} (l : list A) : bool :=
  match l with [] => false | _ => true end.

(** [NewsService._fetch_source] *)
Definition stamp (name : str) (a : article) : article :=
  {| title := title a; link := link a; published := published a;
     timestamp := timestamp a; source_name := Some name |}.

Definition _fetch_source (get : str -> response) (name url : str)
  : option (list article) :=
  match fetch_feed get url with
  | Some data => if nonempty data then Some (List.map (stamp name) data) else None
  | None => None
  end.

(** [RSS_CHANNELS], in the order the dict literal lists its keys. *)
Definition general_sources : list (str * str) :=
  [ (lit "Lenta.ru", lit "https://lenta.ru/rss/news");
    (lit "TASS", lit "https://tass.ru/rss/v2.xml");
    (lit "RIA", lit "https://ria.ru/export/rss2/archive/index.xml");
    (lit "Interfax", lit "https://www.interfax.ru/rss.asp");
    (lit "Rossiyskaya Gazeta", lit "https://rg.ru/xml/index.xml");
    (lit "Regnum", lit "https://regnum.ru/rss");
    (lit "Moskovsky Komsomolets", lit "https://www.mk.ru/rss/index.xml");
    (lit "AiF", lit "https://aif.ru/rss/news.php");
    (lit "TV Zvezda", lit "https://tvzvezda.ru/export/rss.xml") ].

Definition lifehacker_name : str :=
  [76; 105; 102; 101; 104; 97; 99; 107; 101; 114; 32; 40; 1047; 1076; 1086;
   1088; 1086; 1074; 1100; 1077; 41]%N.

Definition RSS_CHANNELS : list (str * list (str * str)) :=
  [ (lit "general", general_sources);
    (lit "technology",
      [ (lit "Habr", lit "https://habr.com/ru/rss/all/all/");
        (lit "3DNews", lit "https://www.3dnews.ru/news/rss/");
        (lit "CNews", lit "https://www.cnews.ru/inc/rss/news.xml");
        (lit "Rozetked", lit "https://rozetked.me/turbo");
        (lit "Tproger", lit "https://tproger.ru/feed/") ]);
    (lit "business",
      [ (lit "RBC", lit "https://rssexport.rbc.ru/rbcnews/news/30/full.rss");
        (lit "Kommersant", lit "https://www.kommersant.ru/RSS/news.xml");
        (lit "Vedomosti", lit "https://www.vedomosti.ru/rss/news") ]);
    (lit "sports",
      [ (lit "Sports.ru", lit "https://www.sports.ru/rss/all_news.xml");
        (lit "Sport-Express",
         lit "https://www.sport-express.ru/services/materials/news/se/") ]);
    (lit "auto", [ (lit "Kolesa.ru", lit "https://www.kolesa.ru/rss") ]);
    (lit "entertainment", [ (lit "Kino.mail", lit "https://kino.mail.ru/rss") ]);
    (lit "science", [ (lit "Naked Science", lit "https://naked-science.ru/feed/") ]);
    (lit "health",
      [ (lifehacker_name, lit "https://lifehacker.ru/tag/zdorove/feed/") ]) ].

(** [d.get(key, dflt)] on a dict given as its list of items. *)
Fixpoint dict_get {V} (d : list (str * V)) (key : str) (dflt : V) : V :=
  match d with
  | [] => dflt
  | (k, v) :: rest => if decide (k = key) then v else dict_get rest key dflt
  end.

(** [all_articles.sort(key=lambda x: x.get("timestamp", 0), reverse=True)].
    [list.sort] is stable, also with [reverse=True]: items with equal keys
    keep their relative order. The model inserts each item, from the last to
    the first, in front of the first item that is not strictly fresher. *)
Fixpoint insert_desc (a : article) (l : list article) : list article :=
  match l with
  | [] => [a]
  | b :: r =>
      if timestamp b <=? timestamp a then a :: l else b :: insert_desc a r
  end.

Fixpoint sort_desc (l : list article) : list article :=
  match l with
  | [] => []
  | a :: r => insert_desc a (sort_desc r)
  end.

(** The result dict of [get_news_by_category]. *)
Record mix := { source : str; articles : list article }.

Definition smart_mix : str :=
  [83; 109; 97; 114; 116; 32; 77; 105; 120; 32; 129504]%N.

Section Aggregation.

(** [str.lower], and the network as seen during one aggregation call. *)
Variable lower : str -> str.
Variable get : str -> response.

(** [art["title"].lower().strip()] *)
Definition normalize (t : str) : str := strip (lower t).

(** The loop over [all_articles] with its [seen_titles] set. *)
Fixpoint dedup (seen : gset str) (arts : list article) : list article :=
  match arts with
  | [] => []
  | art :: rest =>
      let t := normalize (title art) in
      if decide (t ∈ seen) then dedup seen rest
      else art :: dedup ({[t]} ∪ seen) rest
  end.

(** [results = await asyncio.gather] over the tasks: one result per source, in the
    order of the sources. *)
Definition gather (sources : list (str * str)) : list (option (list article)) :=
  List.map (fun s => _fetch_source get (fst s) (snd s)) sources.

(** The loop that extends [all_articles] with every truthy result. *)
Fixpoint collect (results : list (option (list article))) : list article :=
  match results with
  | [] => []
  | Some res :: rest => (if nonempty res then res else []) ++ collect rest
  | None :: rest => collect rest
  end.

(** The body of [get_news_by_category] once the sources are resolved. *)
Definition mix_sources (sources : list (str * str)) : option mix :=
  let all_articles := collect (gather sources) in
  if negb (nonempty all_articles) then None
  else
    let unique_articles := dedup ∅ (sort_desc all_articles) in
    Some {| source := smart_mix; articles := firstn 7 unique_articles |}.

(** [NewsService.get_news_by_category]; [None] is the empty result. No
    statement of the body raises on the dicts [fetch_feed] builds, so the
    call is a total function of the category and the answers of the feeds. *)
Definition get_news_by_category (category : str) : option mix :=
  mix_sources (dict_get RSS_CHANNELS category general_sources).

End Aggregation.

Definition no_news : str :=
  [10060; 32; 1053; 1077; 32; 1091; 1076; 1072; 1083; 1086; 1089; 1100; 32;
   1087; 1086; 1083; 1091; 1095; 1080; 1090; 1100; 32; 1085; 1086; 1074; 1086;
   1089; 1090; 1080; 32; 1087; 1086; 32; 1101; 1090; 1086; 1081; 32; 1082;
   1072; 1090; 1077; 1075; 1086; 1088; 1080; 1080; 32; 40; 1074; 1089; 1077;
   32; 1080; 1089; 1090; 1086; 1095; 1085; 1080; 1082; 1080; 32; 1084; 1086;
   1083; 1095; 1072; 1090; 41; 46; 32; 128532]%N.

Definition source_label : str :=
  [32; 32; 32; 60; 105; 62; 1048; 1089; 1090; 1086; 1095; 1085; 1080; 1082;
   58; 32]%N.

(** The three lines [format_news] appends for item number [i]. *)
Definition item_lines (i : nat) (item : article) : list str :=
  let t := strip (replace_char 160 32 (title item)) in
  let src := default (lit "RSS") (source_name item) in
  [ decimal i ++ lit ". <a href='" ++ link item ++ lit "'>" ++ t ++ lit "</a>";
    source_label ++ src ++ lit "</i>";
    [] ].

Fixpoint enumerate_lines (i : nat) (items : list article) : list str :=
  match items with
  | [] => []
  | item :: rest => item_lines i item ++ enumerate_lines (S i) rest
  end.

(** [NewsService.format_news] *)
Definition format_news (data : option mix) (category_title : str) : str :=
  match data with
  | None => no_news
  | Some d =>
      if negb (nonempty (articles d)) then no_news
      else
        join [10%N]
          ([lit "<b>" ++ category_title ++ lit "</b>"; []]
           ++ enumerate_lines 1 (articles d))
  end.

End News.

(** ** finance_service.py *)

Module Finance.
Import Py.

Section Cache.

(** The JSON numbers of the rates table. *)
Context {rate : Type}.

(** The JSON body of a 200 answer: [data.get("result")] and
    [data.get("rates")], each possibly missing. *)
Record body := { result : option str; rates : option (gmap str rate) }.

(** What [session.get(self.base_url)] can yield: an exception (also when
    [response.json()] fails) or a status with its parsed body. *)
Inductive upstream :=
  | Raised
  | Resp (status : Z) (data : body).

(** The fields of [FinanceService] that [get_rates] reads and writes. Times
    are readings of [time.time()], taken as exact numbers of time units. *)
Record service := { _cache : gmap str rate; _cache_time : Z }.

Definition _ttl : Z := 3600.

(** [FinanceService.__init__] *)
Definition init : service := {| _cache := ∅; _cache_time := 0 |}.

(** The result of one call: the returned value ([None] is the failure),
    the service afterwards and whether the upstream was asked. *)
Record call := {
  returned : option (gmap str rate);
  after : service;
  fetched : bool
}.

(** [FinanceService.get_rates], called at [now]; [up] is what the upstream
    would answer if asked. *)
Definition get_rates (now : Z) (up : upstream) (s : service) : call :=
  if bool_decide (_cache s ≠ ∅) && (now - _cache_time s <? _ttl) then
    {| returned := Some (_cache s); after := s; fetched := false |}
  else
    match up with
    | Resp status data =>
        if (status =? 200) && bool_decide (result data = Some (lit "success"))
        then
          let s' := {| _cache := default ∅ (rates data); _cache_time := now |} in
          {| returned := Some (_cache s'); after := s'; fetched := true |}
        else {| returned := None; after := s; fetched := true |}
    | Raised => {| returned := None; after := s; fetched := true |}
    end.

(** A run of calls, each at its time and with its upstream answer. *)
Fixpoint run (calls : list (Z * upstream)) (s : service) : list call :=
  match calls with
  | [] => []
  | (now, up) :: rest =>
      let c := get_rates now up s in
      c :: run rest (after c)
  end.

(** A successful upstream answer carrying [r]. *)
Definition ok (r : gmap str rate) : upstream :=
  Resp 200 {| result := Some (lit "success"); rates := Some r |}.

Definition count_fetches (cs : list call) : nat :=
  length (List.filter fetched cs).

End Cache.

Arguments body : clear implicits.
Arguments upstream : clear implicits.
Arguments service : clear implicits.
Arguments call : clear implicits.

End Finance.

(** ** bot.py: subscriptions and the broadcast worker *)

Module Bot.
Import Py.

(** One value of the [subscriptions] dict; ["tz"] may be missing. *)
Record subscription := { city : str; time : str; tz : option Z }.

Global Instance subscription_eq_dec : EqDecision subscription.
Proof. solve_decision. Defined.

(** The [subscriptions] dict as its items, in insertion order. *)
Abbreviation subs := (list (Z * subscription)).

(** [subscriptions[uid] = sub]: an existing key keeps its position. *)
Fixpoint dict_set (uid : Z) (sub : subscription) (d : subs) : subs :=
  match d with
  | [] => [(uid, sub)]
  | (k, v) :: rest =>
      if decide (k = uid) then (k, sub) :: rest else (k, v) :: dict_set uid sub rest
  end.

Fixpoint dict_lookup (uid : Z) (d : subs) : option subscription :=
  match d with
  | [] => None
  | (k, v) :: rest => if decide (k = uid) then Some v else dict_lookup uid rest
  end.

(** [f"{h:02d}:{m:02d}"] *)
Definition hhmm (h m : Z) : str := pad2 h ++ [58%N] ++ pad2 m.

(** [dt.strftime("%H:%M")] for the instant [t] seconds after the epoch. *)
Definition strftime_HM (t : Z) : str :=
  hhmm ((t mod 86400) / 3600) ((t mod 3600) / 60).

Section Registration.

(** [\d] of the [re] module and [int] on one character: [int_digit] is
    [None] where [int] raises [ValueError]. *)
Variable re_digit : N -> bool.
Variable int_digit : N -> option Z.

(** [re.match(r"^\d{1,2}:\d{2}$", time_str)] on a stripped string. *)
Definition match_time (s : str) : bool :=
  match s with
  | [h1; c; m1; m2] =>
      re_digit h1 && (c =? 58)%N && re_digit m1 && re_digit m2
  | [h1; h2; c; m1; m2] =>
      re_digit h1 && re_digit h2 && (c =? 58)%N && re_digit m1 && re_digit m2
  | _ => false
  end.

(** [int(s)] on a string of digits; [None] is [ValueError]. *)
Fixpoint int_acc (acc : Z) (s : str) : option Z :=
  match s with
  | [] => Some acc
  | c :: r =>
      match int_digit c with
      | Some d => int_acc (10 * acc + d) r
      | None => None
      end
  end.

Definition int (s : str) : option Z :=
  match s with
  | [] => None
  | _ => int_acc 0 s
  end.

(** [s.split(":")] *)
Fixpoint split_colon (cur : str) (s : str) : list str :=
  match s with
  | [] => [rev cur]
  | c :: r =>
      if (c =? 58)%N then rev cur :: split_colon [] r
      else split_colon (c :: cur) r
  end.

(** The [try] block: [h, m = map(int, time_str.split(":"))], the range
    check and the normalisation; [None] is the [ValueError] branch. *)
Definition parse_time (time_str : str) : option str :=
  match split_colon [] time_str with
  | [hs; ms] =>
      match int hs, int ms with
      | Some h, Some m =>
          if (0 <=? h) && (h <=? 23) && (0 <=? m) && (m <=? 59)
          then Some (hhmm h m) else None
      | _, _ => None
      end
  | _ => None
  end.

(** What the handler answers. *)
Inductive reply :=
  | BadFormat
  | BadTime
  | Done (sub_city time_str : str).

(** The FSM data set by [process_sub_city]. *)
Record fsm_data := { sub_city : str; sub_tz : Z }.

(** [process_sub_time] for the message [text] of user [uid]: the
    [subscriptions] dict afterwards and the answer. *)
Definition process_sub_time (text : str) (uid : Z) (data : fsm_data)
    (subscriptions : subs) : subs * reply :=
  let time_str := strip text in
  if negb (match_time time_str) then (subscriptions, BadFormat)
  else
    match parse_time time_str with
    | None => (subscriptions, BadTime)
    | Some time_str' =>
        (dict_set uid
           {| city := sub_city data; time := time_str'; tz := Some (sub_tz data) |}
           subscriptions,
         Done (sub_city data) time_str')
    end.

End Registration.

(** The ASCII digits, on which [\d] and [int] agree with Python. *)
Definition ascii_re_digit (c : N) : bool := ((48 <=? c) && (c <=? 57))%N.
Definition ascii_int_digit (c : N) : option Z :=
  if ascii_re_digit c then Some (Z.of_N c - 48) else None.

(** *** The broadcast worker *)

(** One value of [user_settings]; both keys may be missing. *)
Record settings := { units : option str; lang : option str }.

(** [get_prefs] *)
Definition get_prefs (user_settings : gmap Z settings) (uid : Z) : str * str :=
  let s := user_settings !! uid in
  (default (lit "metric") (s ≫= units), default (lit "ru") (s ≫= lang)).

(** [a or b] on strings. *)
Definition str_or (a b : str) : str :=
  match a with [] => b | _ => a end.

Definition daily_header : str :=
  [128276; 32; 60; 98; 62; 1045; 1078; 1077; 1076; 1085; 1077; 1074; 1085;
   1099; 1081; 32; 1087; 1088; 1086; 1075; 1085; 1086; 1079; 60; 47; 98; 62;
   10; 10]%N.

(** How a block of statements ends: normally, or with an [Exception]. *)
Inductive outcome := Normal | Raise.

(** [timedelta(seconds=s)] raises [OverflowError] unless the days of [s]
    lie within 999999999 of zero; [now + delta] raises it unless the sum
    lies in the years 1 to 9999. Both are given in seconds. *)
Definition timedelta_ok (s : Z) : bool :=
  (-86399999913600 <=? s) && (s <=? 86399999999999).

Definition datetime_ok (t : Z) : bool :=
  (-62135596800 <=? t) && (t <=? 253402300799).

(** What [session.get(url, params=params)] in [WeatherService._fetch] can
    yield: an exception (also from [resp.text()] or [resp.json()]) or a
    status with the parsed body. *)
Inductive owm_answer (weather : Type) :=
  | OwmRaised
  | OwmResp (status : Z) (json : weather).

Arguments OwmRaised {weather}.
Arguments OwmResp {weather}.

(** Everything outside the worker. [world] is the state of the network,
    the clock, Telegram and the dicts other handlers write; [weather] is the
    parsed JSON of a weather answer. *)
Record env (world weather : Type) := {
  (** the request for [q=city] with [units] and [lang] *)
  owm_get : world -> str -> str -> str -> owm_answer weather * world;
  (** truth value of the parsed JSON ([if data:]) *)
  truthy : weather -> bool;
  (** [ws.format_current(data, units=u)]; [None] when it raises, as
      [data["weather"][0]] and [data["main"]] do on a body without them *)
  format_current : weather -> str -> option str;
  (** [bot.send_message(uid, text)]; [false] when it raises *)
  send_message : world -> Z -> str -> bool * world;
  (** [datetime.now(timezone.utc)] in seconds after the epoch *)
  utc_now : world -> Z;
  (** [datetime.now().second] *)
  local_second : world -> Z;
  (** [asyncio.sleep] *)
  sleep : Z -> world -> world;
  (** the two dicts *)
  subscriptions : world -> subs;
  user_settings : world -> gmap Z settings
}.

Arguments owm_get {world weather}.
Arguments truthy {world weather}.
Arguments format_current {world weather}.
Arguments send_message {world weather}.
Arguments utc_now {world weather}.
Arguments local_second {world weather}.
Arguments sleep {world weather}.
Arguments subscriptions {world weather}.
Arguments user_settings {world weather}.

(** What the worker does that can be observed. *)
Inductive event :=
  | LogSending (uid : Z) (sub_city : str)
  | Fetch (uid : Z) (sub_city units lang : str)
  | LogFetchFailed
  | Deliver (uid : Z) (text : str)
  | LogNotDelivered (uid : Z)
  | LogWorkerError
  | Sleep (seconds : Z).

Section Worker.

Context {world weather : Type}.
Variable E : env world weather.

(** [WeatherService._fetch] behind [get_current]: the answer, or [None]
    after logging when the request raises or the status is not 200. Opening
    the client session, the one step outside the [try], is taken to succeed. *)
Definition get_current (w : world) (sub_city u l : str)
  : option weather * list event * world :=
  let '(ans, w1) :=
    owm_get E w sub_city (str_or u (lit "metric")) (str_or l (lit "ru")) in
  match ans with
  | OwmRaised => (None, [LogFetchFailed], w1)
  | OwmResp status json =>
      if negb (status =? 200) then (None, [LogFetchFailed], w1)
      else (Some json, [], w1)
  end.

(** The body of the [for] loop for one subscription at the instant [now].
    The local time is computed outside the inner [try]: when it overflows,
    the exception leaves the body before anything else happens. *)
Definition process_sub (now : Z) (uid : Z) (sub : subscription) (w : world)
  : outcome * list event * world :=
  let user_tz := default 0 (tz sub) in
  if negb (timedelta_ok user_tz && datetime_ok (now + user_tz)) then (Raise, [], w)
  else
  let user_now := now + user_tz in
  let curr_time := strftime_HM user_now in
  if decide (curr_time = time sub) then
    let '(u, l) := get_prefs (user_settings E w) uid in
    let '(data, ev, w1) := get_current w (city sub) u l in
    let evs := [LogSending uid (city sub); Fetch uid (city sub) u l] ++ ev in
    match data with
    | Some d =>
        if truthy E d then
          match format_current E d u with
          | None => (Raise, evs, w1)
          | Some card =>
              let text := daily_header ++ card in
              let '(sent, w2) := send_message E w1 uid text in
              if sent then (Normal, evs ++ [Deliver uid text], w2)
              else (Normal, evs ++ [Deliver uid text; LogNotDelivered uid], w2)
          end
        else (Normal, evs, w1)
    | None => (Normal, evs, w1)
    end
  else (Normal, [], w).

(** The [for] loop over the snapshot [list(subscriptions.items())]: an
    exception leaves the loop. *)
Fixpoint for_subs (now : Z) (items : subs) (w : world)
  : outcome * list event * world :=
  match items with
  | [] => (Normal, [], w)
  | (uid, sub) :: rest =>
      match process_sub now uid sub w with
      | (Normal, ev, w1) =>
          let '(o, ev', w2) := for_subs now rest w1 in (o, ev ++ ev', w2)
      | (Raise, ev, w1) => (Raise, ev, w1)
      end
  end.

(** The [try] block of the worker: one tick and the sleep to the next
    minute. *)
Definition tick_body (w : world) : outcome * list event * world :=
  let now := utc_now E w in
  match for_subs now (subscriptions E w) w with
  | (Normal, ev, w1) =>
      let d := 60 - local_second E w1 in
      (Normal, ev ++ [Sleep d], sleep E d w1)
  | (Raise, ev, w1) => (Raise, ev, w1)
  end.

(** The [except Exception] handler of the worker. *)
Definition on_error (w : world) : outcome * list event * world :=
  (Normal, [LogWorkerError; Sleep 60], sleep E 60 w).

(** [try: body except Exception: handler] *)
Definition try_except (body handler : world -> outcome * list event * world)
    (w : world) : outcome * list event * world :=
  match body w with
  | (Normal, ev, w1) => (Normal, ev, w1)
  | (Raise, ev, w1) =>
      let '(o, ev', w2) := handler w1 in (o, ev ++ ev', w2)
  end.

(** One pass through [while True]. *)
Definition iteration : world -> outcome * list event * world :=
  try_except tick_body on_error.

(** Where a worker stands after some passes: still in its loop, or left
    through an exception. *)
Inductive status := Running | Crashed.

Record progress := {
  state : status;
  passes : nat;
  trace : list event;
  final : world
}.

(** [broadcast_worker] observed for at most [n] passes of [while True]; an
    exception that leaves a pass ends the worker. *)
Fixpoint broadcast_worker (n : nat) (w : world) : progress :=
  match n with
  | O => {| state := Running; passes := 0; trace := []; final := w |}
  | S n' =>
      match iteration w with
      | (Normal, ev, w1) =>
          let p := broadcast_worker n' w1 in
          {| state := state p; passes := S (passes p);
             trace := ev ++ trace p; final := final p |}
      | (Raise, ev, w1) =>
          {| state := Crashed; passes := 0; trace := ev; final := w1 |}
      end
  end.

End Worker.

Arguments progress : clear implicits.

End Bot.

(** * Properties *)

(** ** The stable sort *)

Module SortFacts.
Import Py News.

(** Freshest first. *)
Definition desc : list article -> Prop :=
  StronglySorted (fun a b => timestamp b <= timestamp a).

Lemma insert_desc_front a l :
  Forall (fun b => timestamp b <= timestamp a) l -> insert_desc a l = a :: l.
Proof.
  destruct l as [|b r]; [reflexivity|].
  intros H. apply Forall_cons_1 in H as [Hb _]. simpl.
  destruct (Z.leb_spec (timestamp b) (timestamp a)); [reflexivity | lia].
Qed.

Lemma insert_desc_perm a l : insert_desc a l ≡ₚ a :: l.
Proof.
  induction l as [|b r IH]; simpl; [reflexivity|].
  destruct (timestamp b <=? timestamp a); [reflexivity|].
  rewrite IH. apply Permutation_swap.
Qed.

Lemma sort_desc_perm l : sort_desc l ≡ₚ l.
Proof.
  induction l as [|a r IH]; simpl; [reflexivity|].
  rewrite insert_desc_perm. by rewrite IH.
Qed.

Lemma desc_head_bound a l x :
  desc (a :: l) -> x ∈ a :: l -> timestamp x <= timestamp a.
Proof.
  intros Hd Hx. apply StronglySorted_inv in Hd as [_ Hall].
  apply elem_of_cons in Hx as [->|Hx]; [lia|].
  rewrite Forall_forall in Hall. by apply Hall.
Qed.

Lemma insert_desc_sorted a l : desc l -> desc (insert_desc a l).
Proof.
  induction l as [|b r IH]; intros Hd; simpl.
  - repeat constructor.
  - destruct (Z.leb_spec (timestamp b) (timestamp a)) as [Hle|Hlt].
    + constructor; [exact Hd|].
      apply Forall_forall. intros x Hx.
      pose proof (desc_head_bound b r x Hd Hx). lia.
    + pose proof Hd as Hd'. apply StronglySorted_inv in Hd' as [Hr Hall].
      constructor; [by apply IH|].
      apply Forall_forall. intros x Hx.
      rewrite insert_desc_perm in Hx.
      apply elem_of_cons in Hx as [->|Hx]; [lia|].
      rewrite Forall_forall in Hall. by apply Hall.
Qed.

Lemma sort_desc_sorted l : desc (sort_desc l).
Proof.
  induction l as [|a r IH]; simpl; [constructor | by apply insert_desc_sorted].
Qed.

Lemma desc_sublist l1 l2 : l1 `sublist_of` l2 -> desc l2 -> desc l1.
Proof.
  induction 1 as [|x l1 l2 Hs IH|x l1 l2 Hs IH]; intros Hd.
  - constructor.
  - apply StronglySorted_inv in Hd as [Hd Hall]. constructor; [by apply IH|].
    rewrite Forall_forall in Hall |- *. intros y Hy. apply Hall.
    by eapply elem_of_sublist.
  - apply StronglySorted_inv in Hd as [Hd _]. by apply IH.
Qed.

Lemma filter_sublist_mono (P : article -> Prop) `{!forall x, Decision (P x)}
    (l1 l2 : list article) :
  l1 `sublist_of` l2 -> filter P l1 `sublist_of` filter P l2.
Proof.
  induction 1 as [|x l1 l2 Hs IH|x l1 l2 Hs IH].
  - constructor.
  - rewrite !filter_cons. destruct (decide (P x)); [by constructor | exact IH].
  - rewrite filter_cons. destruct (decide (P x)); [by constructor | exact IH].
Qed.

(** Sorting commutes with taking out the items that satisfy [P]: this is
    what stability means for the sort. *)
Lemma filter_insert_desc (P : article -> Prop) `{!forall x, Decision (P x)} a l :
  desc l ->
  filter P (insert_desc a l) =
    if decide (P a) then insert_desc a (filter P l) else filter P l.
Proof.
  induction l as [|b r IH]; intros Hd.
  - simpl. rewrite filter_cons, filter_nil. by destruct (decide (P a)).
  - simpl insert_desc at 1.
    destruct (Z.leb_spec (timestamp b) (timestamp a)) as [Hle|Hlt].
    + rewrite filter_cons. destruct (decide (P a)); [|reflexivity].
      symmetry. apply insert_desc_front. apply Forall_forall. intros x Hx.
      assert (x ∈ b :: r) as Hx'
        by (eapply elem_of_sublist; [exact Hx | apply sublist_filter]).
      pose proof (desc_head_bound b r x Hd Hx'). lia.
    + pose proof Hd as Hd'. apply StronglySorted_inv in Hd' as [Hr _].
      rewrite (filter_cons P b (insert_desc a r)), (filter_cons P b r), (IH Hr).
      destruct (decide (P a)), (decide (P b)); try reflexivity.
      simpl. destruct (Z.leb_spec (timestamp b) (timestamp a)); [lia | reflexivity].
Qed.

Lemma filter_sort_desc (P : article -> Prop) `{!forall x, Decision (P x)} l :
  filter P (sort_desc l) = sort_desc (filter P l).
Proof.
  induction l as [|a r IH]; [reflexivity|].
  simpl sort_desc at 1.
  rewrite filter_insert_desc by apply sort_desc_sorted.
  rewrite filter_cons, IH. by destruct (decide (P a)).
Qed.

Lemma sort_desc_same_key k l :
  Forall (fun a => timestamp a = k) l -> sort_desc l = l.
Proof.
  induction 1 as [|a r Ha Hr IH]; [reflexivity|].
  simpl. rewrite IH. apply insert_desc_front.
  eapply Forall_impl; [exact Hr|]. simpl. intros b Hb. lia.
Qed.

(** Items with equal timestamps keep their order. *)
Lemma sort_desc_stable k l :
  filter (fun a => timestamp a = k) (sort_desc l)
  = filter (fun a => timestamp a = k) l.
Proof.
  rewrite filter_sort_desc. apply (sort_desc_same_key k).
  apply Forall_forall. intros a Ha. by apply list_elem_of_filter in Ha as [? _].
Qed.

(** The first item of the sorted list is the first of the freshest. *)
Lemma sort_desc_head l a r :
  sort_desc l = a :: r ->
  exists l1 l2, l = l1 ++ a :: l2
    /\ Forall (fun b => timestamp b < timestamp a) l1
    /\ Forall (fun b => timestamp b <= timestamp a) l2.
Proof.
  revert a r. induction l as [|x l IH]; intros a r Hs; [discriminate|].
  simpl in Hs. destruct (sort_desc l) as [|b s] eqn:Hsl.
  - assert (l = []) as ->.
    { apply Permutation_nil_r. by rewrite <- Hsl, sort_desc_perm. }
    simpl in Hs. injection Hs as <- <-. exists [], []. by repeat split.
  - destruct (IH b s eq_refl) as (l1 & l2 & -> & H1 & H2).
    simpl in Hs.
    destruct (Z.leb_spec (timestamp b) (timestamp x)) as [Hle|Hlt].
    + injection Hs as <- <-. exists [], (l1 ++ b :: l2). repeat split; [constructor|].
      apply Forall_app. split.
      * eapply Forall_impl; [exact H1|]. simpl. intros; lia.
      * constructor; [lia|]. eapply Forall_impl; [exact H2|]. simpl. intros; lia.
    + injection Hs as <- <-. exists (x :: l1), l2. repeat split.
      * by constructor.
      * exact H2.
Qed.

(** Any stable, freshest-first arrangement of [l] is [sort_desc l]: the
    result does not depend on the sorting algorithm. *)
Lemma desc_stable_unique l1 l2 :
  desc l1 -> desc l2 ->
  (forall k, filter (fun a => timestamp a = k) l1
             = filter (fun a => timestamp a = k) l2) ->
  l1 = l2.
Proof.
  revert l2. induction l1 as [|a r1 IH]; intros l2 Hd1 Hd2 Hf.
  - destruct l2 as [|b r2]; [reflexivity|].
    specialize (Hf (timestamp b)). rewrite filter_nil, filter_cons in Hf.
    by destruct (decide (timestamp b = timestamp b)).
  - destruct l2 as [|b r2].
    + specialize (Hf (timestamp a)). rewrite filter_nil, filter_cons in Hf.
      by destruct (decide (timestamp a = timestamp a)).
    + assert (timestamp a = timestamp b) as Hab.
      { assert (a ∈ b :: r2) as Ha.
        { pose proof (Hf (timestamp a)) as H. rewrite filter_cons in H.
          destruct (decide (timestamp a = timestamp a)); [|done].
          assert (a ∈ filter (fun x => timestamp x = timestamp a) (b :: r2)) as Hin
            by (rewrite <- H; left).
          by apply list_elem_of_filter in Hin as [_ ?]. }
        assert (b ∈ a :: r1) as Hb.
        { pose proof (Hf (timestamp b)) as H. rewrite (filter_cons _ b) in H.
          destruct (decide (timestamp b = timestamp b)); [|done].
          assert (b ∈ filter (fun x => timestamp x = timestamp b) (a :: r1)) as Hin
            by (rewrite H; left).
          by apply list_elem_of_filter in Hin as [_ ?]. }
        pose proof (desc_head_bound _ _ _ Hd2 Ha).
        pose proof (desc_head_bound _ _ _ Hd1 Hb). lia. }
      assert (a = b) as <-.
      { pose proof (Hf (timestamp a)) as H. rewrite !filter_cons in H.
        destruct (decide (timestamp a = timestamp a)); [|done].
        destruct (decide (timestamp b = timestamp a)); [|congruence].
        congruence. }
      f_equal. apply StronglySorted_inv in Hd1 as [Hd1 _].
      apply StronglySorted_inv in Hd2 as [Hd2 _].
      apply IH; [done..|]. intros k. specialize (Hf k).
      rewrite !filter_cons in Hf. destruct (decide (timestamp a = k)); congruence.
Qed.

Lemma sort_desc_unique l l' :
  desc l' ->
  (forall k, filter (fun a => timestamp a = k) l'
             = filter (fun a => timestamp a = k) l) ->
  l' = sort_desc l.
Proof.
  intros Hd Hf. apply desc_stable_unique; [done | apply sort_desc_sorted |].
  intros k. by rewrite sort_desc_stable.
Qed.

End SortFacts.

(** ** The aggregation *)

Module NewsFacts.
Import Py News SortFacts.

(** The sources a category resolves to, and everything fetched from them
    in discovery order: source after source, each feed in its own order. *)
Definition sources_of (category : str) : list (str * str) :=
  dict_get RSS_CHANNELS category general_sources.

Definition fetched (get : str -> response) (category : str) : list article :=
  collect (gather get (sources_of category)).

Section Facts.

Variable lower : str -> str.
Variable get : str -> response.

(** [a] carries the normalized title [t]. *)
Definition same_title (t : str) (a : article) : Prop :=
  normalize lower (title a) = t.

Global Instance same_title_dec t a : Decision (same_title t a).
Proof. unfold same_title. apply _. Defined.

(** The normalized titles among the fetched items. *)
Definition titles (all : list article) : list str :=
  List.map (fun a => normalize lower (title a)) all.

(** [a] stands in [all] at a position such that every item with its
    normalized title is strictly older before that position and not fresher
    after it: the freshest duplicate, the earliest discovered among equals. *)
Definition freshest_of (all : list article) (a : article) : Prop :=
  exists l1 l2, all = l1 ++ a :: l2
    /\ Forall (fun b => same_title (normalize lower (title a)) b ->
                        timestamp b < timestamp a) l1
    /\ Forall (fun b => same_title (normalize lower (title a)) b ->
                        timestamp b <= timestamp a) l2.

(** The deduplicated list, before the cut to seven. *)
Definition unique_articles (all : list article) : list article :=
  dedup lower ∅ (sort_desc all).

(** The claim that every fetched title is in the returned list once. *)
Definition one_item_per_title (category : str) : Prop :=
  forall m t,
    get_news_by_category lower get category = Some m ->
    t ∈ titles (fetched get category) ->
    exists a, filter (same_title t) (articles m) = [a]
              /\ freshest_of (fetched get category) a.

Lemma dedup_filter seen t l :
  filter (same_title t) (dedup lower seen l)
  = if decide (t ∈ seen) then [] else take 1 (filter (same_title t) l).
Proof.
  revert seen. induction l as [|art rest IH]; intros seen.
  - simpl. rewrite filter_nil. by destruct (decide (t ∈ seen)).
  - simpl. rewrite (filter_cons _ art rest).
    destruct (decide (normalize lower (title art) ∈ seen)) as [Hin|Hnin].
    + rewrite IH. destruct (decide (t ∈ seen)) as [|Ht]; [reflexivity|].
      destruct (decide (same_title t art)) as [Heq|]; [|reflexivity].
      unfold same_title in Heq. congruence.
    + rewrite filter_cons, IH.
      destruct (decide (same_title t art)) as [Heq|Hne]; unfold same_title in *.
      * rewrite <- Heq. destruct (decide (_ ∈ seen)); [done|].
        destruct (decide (_ ∈ _ ∪ seen)) as [|Hn]; [reflexivity | set_solver].
      * destruct (decide (t ∈ seen)) as [Hs|Hs],
          (decide (t ∈ {[normalize lower (title art)]} ∪ seen)) as [Hu|Hu];
          try reflexivity; exfalso.
        -- apply Hu. apply elem_of_union. by right.
        -- apply elem_of_union in Hu as [Hu|Hu]; [|done].
           apply elem_of_singleton in Hu. congruence.
Qed.

Lemma dedup_sublist seen l : dedup lower seen l `sublist_of` l.
Proof.
  revert seen. induction l as [|art rest IH]; intros seen; simpl.
  - constructor.
  - destruct (decide (_ ∈ seen)); [apply sublist_cons | apply sublist_skip]; apply IH.
Qed.

Lemma filter_split (P : article -> Prop) `{!forall x, Decision (P x)} l l1' a l2' :
  filter P l = l1' ++ a :: l2' ->
  exists l1 l2, l = l1 ++ a :: l2 /\ filter P l1 = l1' /\ filter P l2 = l2'.
Proof.
  revert l1'. induction l as [|x l IH]; intros l1' Hf.
  - rewrite filter_nil in Hf. by destruct l1'.
  - rewrite filter_cons in Hf. destruct (decide (P x)) as [Hx|Hx].
    + destruct l1' as [|y l1']; simpl in Hf.
      * injection Hf as <- <-. exists [], l. by rewrite filter_nil.
      * injection Hf as <- Hf. destruct (IH _ Hf) as (l1 & l2 & -> & <- & <-).
        exists (x :: l1), l2. rewrite filter_cons.
        by destruct (decide (P x)).
    + destruct (IH _ Hf) as (l1 & l2 & -> & <- & <-).
      exists (x :: l1), l2. rewrite filter_cons.
      by destruct (decide (P x)).
Qed.

Lemma filter_take_one (P : article -> Prop) `{!forall x, Decision (P x)} l a n :
  filter P l = [a] ->
  filter P (take n l) = if decide (a ∈ take n l) then [a] else [].
Proof.
  intros Hf. rewrite <- (take_drop n l), filter_app in Hf.
  destruct (decide (a ∈ take n l)) as [Hin|Hnin].
  - assert (a ∈ filter P (take n l)) as Ha.
    { apply list_elem_of_filter. split; [|done].
      assert (a ∈ filter P (take n l) ++ filter P (drop n l)) as Hm
        by (rewrite Hf; left).
      apply elem_of_app in Hm as [Hm|Hm]; by apply list_elem_of_filter in Hm as [? _]. }
    destruct (filter P (take n l)) as [|x [|y r]]; simpl in Hf.
    + by apply elem_of_nil in Ha.
    + by injection Hf as ->.
    + destruct r; discriminate.
  - destruct (filter P (take n l)) as [|x r] eqn:Ht; [reflexivity|].
    simpl in Hf. injection Hf as -> _. exfalso. apply Hnin.
    assert (a ∈ filter P (take n l)) as Ha by (rewrite Ht; left).
    by apply list_elem_of_filter in Ha as [_ ?].
Qed.

(** In the deduplicated list every fetched title has one item, the
    freshest duplicate. *)
Lemma unique_articles_one all t :
  t ∈ titles all ->
  exists a, filter (same_title t) (unique_articles all) = [a]
            /\ same_title t a /\ freshest_of all a.
Proof.
  intros Ht. unfold titles in Ht. apply list_elem_of_In in Ht.
  apply in_map_iff in Ht as (b & Hb & Hin). apply list_elem_of_In in Hin.
  unfold unique_articles. rewrite dedup_filter.
  destruct (decide (t ∈ (∅ : gset str))) as [Hemp|_]; [set_solver|].
  rewrite filter_sort_desc.
  destruct (sort_desc (filter (same_title t) all)) as [|a r] eqn:Hs.
  - assert (b ∈ filter (same_title t) all) as Hbf
      by (apply list_elem_of_filter; by split).
    rewrite <- sort_desc_perm, Hs in Hbf. by apply elem_of_nil in Hbf.
  - exists a. simpl. split; [reflexivity|].
    assert (same_title t a) as Ha.
    { assert (a ∈ filter (same_title t) all) as Haf
        by (rewrite <- sort_desc_perm, Hs; left).
      by apply list_elem_of_filter in Haf as [? _]. }
    split; [exact Ha|].
    destruct (sort_desc_head _ _ _ Hs) as (l1' & l2' & Hf & H1 & H2).
    destruct (filter_split _ _ _ _ _ Hf) as (l1 & l2 & -> & <- & <-).
    exists l1, l2. split; [reflexivity|]. unfold same_title in Ha. rewrite Ha.
    rewrite Forall_forall in H1, H2. split; apply Forall_forall; intros x Hx Hsame.
    + apply H1. by apply list_elem_of_filter.
    + apply H2. by apply list_elem_of_filter.
Qed.

Lemma mix_sources_some sources m :
  mix_sources lower get sources = Some m ->
  articles m = take 7 (unique_articles (collect (gather get sources))).
Proof.
  unfold mix_sources. destruct (nonempty _); simpl; [|discriminate].
  by intros [= <-].
Qed.

End Facts.

(** *** Inputs for the examples *)

Definition entry (t : string) (ts : Z) : raw_entry :=
  {| e_title := Some (lit t); e_link := None; e_published := None;
     e_published_parsed := Some (Seconds ts) |}.

(** Two sports feeds carrying the same story; Sport-Express has the
    freshest copy and one more item. *)
Definition storm_get (url : str) : response :=
  if decide (url = lit "https://www.sports.ru/rss/all_news.xml")
  then Http 200 [entry "Storm Hits City" 100]
  else if decide (url = lit "https://www.sport-express.ru/services/materials/news/se/")
  then Http 200 [entry "storm hits city " 150; entry "Cup Final" 100]
  else NetError.

(** The only feed of the "auto" category answers with eight items. *)
Definition eight_get (url : str) : response :=
  if decide (url = lit "https://www.kolesa.ru/rss")
  then Http 200 [entry "a" 8; entry "b" 7; entry "c" 6; entry "d" 5;
                 entry "e" 4; entry "f" 3; entry "g" 2; entry "h" 1]
  else NetError.

(** Every request fails. *)
Definition dead_get (url : str) : response := NetError.

Definition storm_kept : article :=
  {| title := lit "storm hits city "; link := lit "#"; published := unknown_date;
     timestamp := 150; source_name := Some (lit "Sport-Express") |}.

Definition cup_final : article :=
  {| title := lit "Cup Final"; link := lit "#"; published := unknown_date;
     timestamp := 100; source_name := Some (lit "Sport-Express") |}.

(** *** Deduplication *)

(** C1, as the code has it. For every normalized title among the fetched
    items, the list before the cut to seven holds exactly one item with that
    title: the duplicate with the greatest timestamp, the earliest
    discovered among equals, taken unchanged from the fetched items. The
    returned list is the first seven of that list, so it holds that item
    once when it is among the first seven and no item with that title
    otherwise; with at most seven distinct titles nothing is cut. *)
Theorem mix_keeps_freshest_per_title lower get category m t :
  get_news_by_category lower get category = Some m ->
  t ∈ titles lower (fetched get category) ->
  exists a,
    same_title lower t a
    /\ freshest_of lower (fetched get category) a
    /\ filter (same_title lower t) (unique_articles lower (fetched get category)) = [a]
    /\ articles m = take 7 (unique_articles lower (fetched get category))
    /\ filter (same_title lower t) (articles m)
       = (if decide (a ∈ articles m) then [a] else [])
    /\ ((length (unique_articles lower (fetched get category)) <= 7)%nat ->
        filter (same_title lower t) (articles m) = [a]).
Proof.
  intros Hm Ht. apply mix_sources_some in Hm. fold (sources_of category) in Hm.
  fold (fetched get category) in Hm.
  destruct (unique_articles_one lower _ _ Ht) as (a & Hone & Hsame & Hfresh).
  exists a. repeat split; try done.
  - rewrite Hm. by apply filter_take_one.
  - intros Hlen. rewrite Hm, firstn_all2 by exact Hlen. exact Hone.
Qed.

Lemma mix_keeps_freshest_per_title_witness :
  get_news_by_category lower_ascii storm_get (lit "sports")
    = Some {| source := smart_mix; articles := [storm_kept; cup_final] |}
  /\ (lit "storm hits city" ∈ titles lower_ascii (fetched storm_get (lit "sports")))
  /\ exists a,
      same_title lower_ascii (lit "storm hits city") a
      /\ freshest_of lower_ascii (fetched storm_get (lit "sports")) a
      /\ filter (same_title lower_ascii (lit "storm hits city"))
           (unique_articles lower_ascii (fetched storm_get (lit "sports"))) = [a]
      /\ [storm_kept; cup_final]
         = take 7 (unique_articles lower_ascii (fetched storm_get (lit "sports")))
      /\ filter (same_title lower_ascii (lit "storm hits city")) [storm_kept; cup_final]
         = (if decide (a ∈ [storm_kept; cup_final]) then [a] else [])
      /\ ((length (unique_articles lower_ascii (fetched storm_get (lit "sports"))) <= 7)%nat ->
          filter (same_title lower_ascii (lit "storm hits city")) [storm_kept; cup_final]
          = [a]).
Proof.
  split; [vm_compute; reflexivity|].
  split; [vm_compute; left|].
  apply (mix_keeps_freshest_per_title lower_ascii storm_get (lit "sports")
           {| source := smart_mix; articles := [storm_kept; cup_final] |}
           (lit "storm hits city")).
  - vm_compute; reflexivity.
  - vm_compute; left.
Defined.

(** The scenario of the two feeds: one item for the story, the copy of
    the second feed with timestamp 150 and its own title. *)
Example storm_scenario :
  articles <$> get_news_by_category lower_ascii storm_get (lit "sports")
  = Some [storm_kept; cup_final].
Proof. vm_compute. reflexivity. Qed.

(** C1 as stated fails: with eight distinct titles in the only feed of
    "auto", the title of the oldest item is not in the returned list. *)
Lemma eighth_title_is_cut : ~ one_item_per_title lower_ascii eight_get (lit "auto").
Proof.
  intros Hclaim.
  destruct (get_news_by_category lower_ascii eight_get (lit "auto")) as [m|] eqn:Hm;
    [|vm_compute in Hm; discriminate].
  destruct (Hclaim m (lit "h") Hm) as (a & Hf & _).
  - vm_compute. do 7 right. left.
  - vm_compute in Hm. injection Hm as <-. vm_compute in Hf. discriminate.
Qed.

(** *** Order and size *)

(** C2. A returned list has at most seven items and is sorted by
    timestamp, freshest first; its items of one timestamp stand in the order
    in which they were discovered. It is the first seven of the deduplicated
    stable sort of the fetched items. *)
Theorem mix_capped_sorted_stable lower get category m :
  get_news_by_category lower get category = Some m ->
  (length (articles m) <= 7)%nat
  /\ desc (articles m)
  /\ (forall k,
        filter (fun a => timestamp a = k) (articles m)
        `sublist_of` filter (fun a => timestamp a = k) (fetched get category))
  /\ exists sorted,
        sorted ≡ₚ fetched get category
        /\ desc sorted
        /\ (forall k, filter (fun a => timestamp a = k) sorted
                      = filter (fun a => timestamp a = k) (fetched get category))
        /\ articles m = take 7 (dedup lower ∅ sorted).
Proof.
  intros Hm. apply mix_sources_some in Hm. fold (sources_of category) in Hm.
  fold (fetched get category) in Hm. unfold unique_articles in Hm.
  assert (articles m `sublist_of` sort_desc (fetched get category)) as Hsub.
  { rewrite Hm. etrans; [apply sublist_take | apply dedup_sublist]. }
  split; [rewrite Hm; apply firstn_le_length|].
  split; [eapply desc_sublist; [exact Hsub | apply sort_desc_sorted]|].
  split.
  - intros k. rewrite <- (sort_desc_stable k (fetched get category)).
    by apply filter_sublist_mono.
  - exists (sort_desc (fetched get category)).
    split; [apply sort_desc_perm|]. split; [apply sort_desc_sorted|].
    split; [intros k; apply sort_desc_stable | exact Hm].
Qed.

Lemma mix_capped_sorted_stable_witness :
  get_news_by_category lower_ascii storm_get (lit "sports")
    = Some {| source := smart_mix; articles := [storm_kept; cup_final] |}
  /\ (length [storm_kept; cup_final] <= 7)%nat
  /\ desc [storm_kept; cup_final]
  /\ (forall k,
        filter (fun a => timestamp a = k) [storm_kept; cup_final]
        `sublist_of` filter (fun a => timestamp a = k) (fetched storm_get (lit "sports")))
  /\ exists sorted,
        sorted ≡ₚ fetched storm_get (lit "sports")
        /\ desc sorted
        /\ (forall k, filter (fun a => timestamp a = k) sorted
                      = filter (fun a => timestamp a = k) (fetched storm_get (lit "sports")))
        /\ [storm_kept; cup_final] = take 7 (dedup lower_ascii ∅ sorted).
Proof.
  split; [vm_compute; reflexivity|].
  apply (mix_capped_sorted_stable lower_ascii storm_get (lit "sports")
           {| source := smart_mix; articles := [storm_kept; cup_final] |}).
  vm_compute; reflexivity.
Defined.

(** *** Unknown categories and failing sources *)

Lemma dict_get_missing {V} (d : list (str * V)) key dflt :
  key ∉ List.map fst d -> dict_get d key dflt = dflt.
Proof.
  induction d as [|[k v] d IH]; intros Hk; simpl; [reflexivity|].
  destruct (decide (k = key)) as [->|Hne].
  - exfalso. apply Hk. simpl. left.
  - apply IH. intros Hin. apply Hk. simpl. by right.
Qed.

(** C7. A category that is not a key of the feed table resolves to the
    sources of "general": the call gives what the call for "general" gives,
    the aggregation over that default list. *)
Theorem unknown_category_is_general lower get category :
  category ∉ List.map fst RSS_CHANNELS ->
  sources_of category = general_sources
  /\ get_news_by_category lower get category
     = get_news_by_category lower get (lit "general")
  /\ get_news_by_category lower get category
     = mix_sources lower get general_sources.
Proof.
  intros Hk. unfold get_news_by_category, sources_of.
  rewrite (dict_get_missing _ _ _ Hk). by repeat split.
Qed.

Lemma unknown_category_is_general_witness :
  (lit "weather" ∉ List.map fst RSS_CHANNELS)
  /\ sources_of (lit "weather") = general_sources
  /\ get_news_by_category lower_ascii storm_get (lit "weather")
     = get_news_by_category lower_ascii storm_get (lit "general")
  /\ get_news_by_category lower_ascii storm_get (lit "weather")
     = mix_sources lower_ascii storm_get general_sources.
Proof.
  assert (lit "weather" ∉ List.map fst RSS_CHANNELS) as Hk.
  { intros Hin. vm_compute in Hin.
    repeat (apply elem_of_cons in Hin as [Hin|Hin]; [discriminate|]).
    by apply elem_of_nil in Hin. }
  split; [exact Hk|].
  exact (unknown_category_is_general lower_ascii storm_get (lit "weather") Hk).
Defined.

Lemma collect_all_failed get sources :
  Forall (fun s => _fetch_source get (fst s) (snd s) = None) sources ->
  collect (gather get sources) = [].
Proof.
  induction 1 as [|s rest Hs _ IH]; [reflexivity|].
  unfold gather in *. simpl. by rewrite Hs.
Qed.

(** C8. When the fetch of every source of the category fails, the call
    returns the empty result, and the formatter turns it into the message
    that no news could be obtained. *)
Theorem all_sources_failed_no_news lower get category category_title :
  Forall (fun s => fetch_feed get (snd s) = None) (sources_of category) ->
  get_news_by_category lower get category = None
  /\ format_news (get_news_by_category lower get category) category_title = no_news.
Proof.
  intros Hall.
  assert (get_news_by_category lower get category = None) as Hnone.
  { unfold get_news_by_category, mix_sources. fold (sources_of category).
    rewrite collect_all_failed; [reflexivity|].
    eapply Forall_impl; [exact Hall|]. simpl. intros s Hs.
    unfold _fetch_source. by rewrite Hs. }
  split; [exact Hnone | by rewrite Hnone].
Qed.

Lemma all_sources_failed_no_news_witness :
  Forall (fun s => fetch_feed dead_get (snd s) = None) (sources_of (lit "sports"))
  /\ get_news_by_category lower_ascii dead_get (lit "sports") = None
  /\ format_news (get_news_by_category lower_ascii dead_get (lit "sports"))
       (lit "Sport") = no_news.
Proof.
  assert (Forall (fun s => fetch_feed dead_get (snd s) = None)
            (sources_of (lit "sports"))) as Hall.
  { apply Forall_forall. intros s _. reflexivity. }
  split; [exact Hall|].
  exact (all_sources_failed_no_news lower_ascii dead_get (lit "sports")
           (lit "Sport") Hall).
Defined.

End NewsFacts.

(** ** The rates cache *)

Module FinanceFacts.
Import Py Finance.

Section Facts.

Context {rate : Type}.

(** The cached entry is absent or expired at [now]. *)
Definition miss (s : service rate) (now : Z) : Prop :=
  _cache s = ∅ \/ _ttl <= now - _cache_time s.

(** The payload a successful answer carries; [None] for a failed fetch. *)
Definition payload_of (up : upstream rate) : option (gmap str rate) :=
  match up with
  | Resp status data =>
      if (status =? 200) && bool_decide (result data = Some (lit "success"))
      then Some (default ∅ (rates data)) else None
  | Raised => None
  end.

(** The claim that a failed fetch on a miss still hands the previous
    entry to the caller. *)
Definition stale_served (s : service rate) (now : Z) (up : upstream rate) : Prop :=
  miss s now -> payload_of up = None -> _cache s ≠ ∅ ->
  returned (get_rates now up s) = Some (_cache s).

(** The claim that a call within TTL of a successful call returns the
    same payload without a second fetch. *)
Definition hit_within_ttl (s : service rate) (now1 : Z) (up1 : upstream rate)
    (now2 : Z) (up2 : upstream rate) : Prop :=
  let c1 := get_rates now1 up1 s in
  let c2 := get_rates now2 up2 (after c1) in
  forall p, returned c1 = Some p ->
    now2 - _cache_time (after c1) < _ttl ->
    returned c2 = Some p /\ (count_fetches [c1; c2] <= 1)%nat.

Lemma get_rates_hit (s : service rate) now (up : upstream rate) :
  _cache s ≠ ∅ -> now - _cache_time s < _ttl ->
  get_rates now up s = {| returned := Some (_cache s); after := s; fetched := false |}.
Proof.
  intros Hc Ht. unfold get_rates.
  rewrite bool_decide_true by exact Hc.
  destruct (Z.ltb_spec (now - _cache_time s) _ttl); [reflexivity | lia].
Qed.

Lemma get_rates_miss (s : service rate) now (up : upstream rate) :
  miss s now ->
  get_rates now up s =
    match payload_of up with
    | Some p =>
        {| returned := Some p; after := {| _cache := p; _cache_time := now |};
           fetched := true |}
    | None => {| returned := None; after := s; fetched := true |}
    end.
Proof.
  intros Hm. unfold get_rates.
  assert (bool_decide (_cache s ≠ ∅) && (now - _cache_time s <? _ttl) = false) as ->.
  { destruct Hm as [Hm|Hm].
    - rewrite bool_decide_false; [reflexivity | intros Hn; by apply Hn].
    - apply andb_false_iff. right. apply Z.ltb_ge. exact Hm. }
  destruct up as [|status data]; simpl; [reflexivity|].
  by destruct ((status =? 200) && bool_decide (result data = Some (lit "success"))).
Qed.

Lemma miss_dec (s : service rate) now :
  miss s now \/ (_cache s ≠ ∅ /\ now - _cache_time s < _ttl).
Proof.
  destruct (decide (_cache s = ∅)) as [He|Hne]; [left; by left|].
  destruct (Z.lt_ge_cases (now - _cache_time s) _ttl); [right; by split | left; right; lia].
Qed.

(** What a call returns is what the cache holds afterwards. *)
Lemma returned_is_cached (s : service rate) now (up : upstream rate) p :
  returned (get_rates now up s) = Some p -> _cache (after (get_rates now up s)) = p.
Proof.
  destruct (miss_dec s now) as [Hm|[Hc Ht]].
  - rewrite (get_rates_miss _ _ _ Hm). destruct (payload_of up); simpl; congruence.
  - rewrite (get_rates_hit _ _ _ Hc Ht). simpl. congruence.
Qed.

End Facts.

(** *** Inputs for the examples *)

Definition rub : gmap str Z := {[ lit "RUB" := 90 ]}.
Definition stale : service Z := {| _cache := rub; _cache_time := 0 |}.

(** C4, as the code has it. On a call that finds the entry absent or
    expired the upstream is asked once. A successful fetch overwrites the
    entry and its timestamp and returns the new payload. A failed fetch
    leaves the entry and its timestamp as they were and returns the failure,
    whether or not a previous entry exists. *)
Theorem miss_overwrites_or_fails {rate} (s : service rate) now up :
  miss s now ->
  fetched (get_rates now up s) = true
  /\ (forall p, payload_of up = Some p ->
        returned (get_rates now up s) = Some p
        /\ after (get_rates now up s) = {| _cache := p; _cache_time := now |})
  /\ (payload_of up = None ->
        returned (get_rates now up s) = None
        /\ after (get_rates now up s) = s).
Proof.
  intros Hm. rewrite (get_rates_miss _ _ _ Hm).
  destruct (payload_of up) as [p|]; simpl.
  - split; [reflexivity|]. split; [|discriminate]. by intros ? [= <-].
  - split; [reflexivity|]. split; [discriminate | done].
Qed.

Lemma miss_overwrites_or_fails_witness :
  miss stale 4000
  /\ fetched (get_rates 4000 Raised stale) = true
  /\ (forall p, payload_of (Raised : upstream Z) = Some p ->
        returned (get_rates 4000 Raised stale) = Some p
        /\ after (get_rates 4000 Raised stale) = {| _cache := p; _cache_time := 4000 |})
  /\ (payload_of (Raised : upstream Z) = None ->
        returned (get_rates 4000 Raised stale) = None
        /\ after (get_rates 4000 Raised stale) = stale).
Proof.
  assert (miss stale 4000) as Hm by (right; vm_compute; discriminate).
  split; [exact Hm|].
  exact (miss_overwrites_or_fails stale 4000 Raised Hm).
Defined.

(** C4 as stated fails: the entry fetched at time 0 exists, the fetch at
    time 4000 fails, and the caller gets the failure, not the entry. *)
Lemma stale_entry_not_served : ~ stale_served stale 4000 Raised.
Proof.
  unfold stale_served. intros Hclaim.
  assert (returned (get_rates 4000 Raised stale) = Some (_cache stale)) as Hr.
  { apply Hclaim.
    - right. vm_compute. discriminate.
    - reflexivity.
    - intros He. apply (f_equal (fun m => m !! lit "RUB")) in He.
      vm_compute in He. discriminate. }
  vm_compute in Hr. discriminate.
Qed.

(** C5, as the code has it. When a call returns a non-empty payload
    and the next call comes strictly within TTL of the time that payload was
    fetched, the next call returns the same payload without asking the
    upstream, so at most one fetch serves both; a call at or after the end
    of the TTL asks the upstream again. *)
Theorem nonempty_hit_within_ttl {rate} (s : service rate) now1 up1 now2 up2 p :
  returned (get_rates now1 up1 s) = Some p ->
  p ≠ ∅ ->
  now2 - _cache_time (after (get_rates now1 up1 s)) < _ttl ->
  returned (get_rates now2 up2 (after (get_rates now1 up1 s))) = Some p
  /\ fetched (get_rates now2 up2 (after (get_rates now1 up1 s))) = false
  /\ (count_fetches
        [get_rates now1 up1 s;
         get_rates now2 up2 (after (get_rates now1 up1 s))] <= 1)%nat
  /\ after (get_rates now2 up2 (after (get_rates now1 up1 s)))
     = after (get_rates now1 up1 s)
  /\ (forall now3 up3,
        _ttl <= now3 - _cache_time (after (get_rates now1 up1 s)) ->
        fetched (get_rates now3 up3 (after (get_rates now1 up1 s))) = true).
Proof.
  intros Hr Hp Ht. pose proof (returned_is_cached _ _ _ _ Hr) as Hc.
  assert (_cache (after (get_rates now1 up1 s)) ≠ ∅) as Hne by (by rewrite Hc).
  rewrite (get_rates_hit _ now2 up2 Hne Ht). simpl.
  split; [by rewrite Hc|]. split; [reflexivity|]. split.
  - unfold count_fetches. simpl. destruct (fetched _); simpl; lia.
  - split; [reflexivity|]. intros now3 up3 Hexp.
    rewrite get_rates_miss by (by right). by destruct (payload_of up3).
Qed.

Lemma nonempty_hit_within_ttl_witness :
  returned (get_rates 10 (ok rub) init) = Some rub
  /\ rub ≠ ∅
  /\ 3609 - _cache_time (after (get_rates 10 (ok rub) init)) < _ttl
  /\ returned (get_rates 3609 Raised (after (get_rates 10 (ok rub) init))) = Some rub
  /\ fetched (get_rates 3609 Raised (after (get_rates 10 (ok rub) init))) = false
  /\ (count_fetches
        [get_rates 10 (ok rub) init;
         get_rates 3609 Raised (after (get_rates 10 (ok rub) init))] <= 1)%nat
  /\ after (get_rates 3609 Raised (after (get_rates 10 (ok rub) init)))
     = after (get_rates 10 (ok rub) init)
  /\ (forall now3 up3,
        _ttl <= now3 - _cache_time (after (get_rates 10 (ok rub) init)) ->
        fetched (get_rates now3 up3 (after (get_rates 10 (ok rub) init))) = true).
Proof.
  assert (returned (get_rates 10 (ok rub) init) = Some rub) as Hr
    by (vm_compute; reflexivity).
  assert (rub ≠ ∅) as Hp.
  { intros He. apply (f_equal (fun m => m !! lit "RUB")) in He.
    vm_compute in He. discriminate. }
  assert (3609 - _cache_time (after (get_rates 10 (ok rub) init)) < _ttl) as Ht
    by (vm_compute; reflexivity).
  split; [exact Hr|]. split; [exact Hp|]. split; [exact Ht|].
  exact (nonempty_hit_within_ttl init 10 (ok rub) 3609 Raised rub Hr Hp Ht).
Defined.

(** C5 as stated fails: the first call succeeds with an empty table, the
    second comes ten time units later, asks the upstream again and returns
    another payload. *)
Lemma empty_payload_refetched : ~ hit_within_ttl init 10 (ok ∅) 20 (ok rub).
Proof.
  unfold hit_within_ttl. intros Hclaim.
  destruct (Hclaim ∅) as [Hr _].
  - vm_compute. reflexivity.
  - vm_compute. reflexivity.
  - apply (f_equal (fun o => o ≫= (fun m => m !! lit "RUB"))) in Hr.
    vm_compute in Hr. discriminate.
Qed.

(** C10. When a successful fetch carries an empty table, the empty
    payload is stored with its timestamp and returned; after that every
    call asks the upstream, whatever its time, for as long as no fetch has
    brought a non-empty table. *)
Theorem empty_payload_always_refetched {rate} (s : service rate) now up :
  miss s now ->
  payload_of up = Some ∅ ->
  returned (get_rates now up s) = Some ∅
  /\ after (get_rates now up s) = {| _cache := ∅; _cache_time := now |}
  /\ (forall now' up',
        fetched (get_rates now' up' (after (get_rates now up s))) = true
        /\ returned (get_rates now' up' (after (get_rates now up s))) = payload_of up')
  /\ (forall calls,
        Forall (fun c => payload_of (snd c) = None \/ payload_of (snd c) = Some ∅) calls ->
        Forall (fun c => fetched c = true) (run calls (after (get_rates now up s)))).
Proof.
  intros Hm Hp. rewrite (get_rates_miss _ _ _ Hm), Hp. simpl.
  split; [reflexivity|]. split; [reflexivity|]. split.
  - intros now' up'. rewrite get_rates_miss by (by left).
    by destruct (payload_of up').
  - intros calls. generalize now. clear.
    induction calls as [|[now' up'] calls IH]; intros now Hall; [constructor|].
    apply Forall_cons_1 in Hall as [Hc Hall]. simpl in Hc. simpl.
    rewrite get_rates_miss by (by left).
    destruct Hc as [-> | ->]; simpl; constructor; try reflexivity; by apply IH.
Qed.

Lemma empty_payload_always_refetched_witness :
  miss (init : service Z) 10
  /\ payload_of (ok ∅ : upstream Z) = Some ∅
  /\ returned (get_rates 10 (ok ∅) (init : service Z)) = Some ∅
  /\ after (get_rates 10 (ok ∅) (init : service Z)) = {| _cache := ∅; _cache_time := 10 |}
  /\ (forall now' up',
        fetched (get_rates now' up' (after (get_rates 10 (ok ∅) (init : service Z)))) = true
        /\ returned (get_rates now' up' (after (get_rates 10 (ok ∅) (init : service Z))))
           = payload_of up')
  /\ (forall calls,
        Forall (fun c => payload_of (snd c) = None \/ payload_of (snd c) = Some ∅) calls ->
        Forall (fun c => fetched c = true)
          (run calls (after (get_rates 10 (ok ∅) (init : service Z))))).
Proof.
  assert (miss (init : service Z) 10) as Hm by (left; reflexivity).
  assert (payload_of (ok ∅ : upstream Z) = Some ∅) as Hp by reflexivity.
  split; [exact Hm|]. split; [exact Hp|].
  exact (empty_payload_always_refetched init 10 (ok ∅) Hm Hp).
Defined.

(** The round trip of the cache: fetch, hit within TTL, expiry, fetch. *)
Example cache_round_trip :
  List.map fetched
    (run [(10, ok rub); (3609, Raised); (3610, ok rub); (3611, Raised)] init)
  = [true; false; true; false].
Proof. vm_compute. reflexivity. Qed.

End FinanceFacts.

(** ** Registration of a subscription *)

Module BotFacts.
Import Py Bot.

(** Two ASCII digits. *)
Definition two_digits (n : Z) : str :=
  [Z.to_N (48 + n / 10); Z.to_N (48 + n mod 10)].

Lemma pad2_two_digits n : 0 <= n <= 59 -> pad2 n = two_digits n.
Proof.
  intros Hn.
  assert (Forall (fun k => pad2 k = two_digits k) (seqZ 0 60)) as Hall
    by (vm_compute; repeat constructor).
  rewrite Forall_forall in Hall. apply Hall, elem_of_seqZ. lia.
Qed.

Lemma hhmm_shape h m :
  0 <= h <= 23 -> 0 <= m <= 59 ->
  hhmm h m = two_digits h ++ [58%N] ++ two_digits m.
Proof.
  intros Hh Hm. unfold hhmm. by rewrite !pad2_two_digits by lia.
Qed.

(** The clock shows [h:m] at [h] hours and [m] minutes after midnight. *)
Lemma strftime_HM_at h m :
  0 <= h <= 23 -> 0 <= m <= 59 -> strftime_HM (h * 3600 + m * 60) = hhmm h m.
Proof.
  intros Hh Hm. unfold strftime_HM.
  assert ((h * 3600 + m * 60) mod 86400 / 3600 = h) as ->.
  { rewrite Z.mod_small by lia. symmetry.
    apply Z.div_unique with (r := m * 60); lia. }
  assert ((h * 3600 + m * 60) mod 3600 / 60 = m) as ->; [|reflexivity].
  assert ((h * 3600 + m * 60) mod 3600 = m * 60) as ->.
  { symmetry. apply Z.mod_unique with (q := h); lia. }
  apply Z.div_mul. lia.
Qed.

Lemma dict_lookup_set uid sub (d : subs) : dict_lookup uid (dict_set uid sub d) = Some sub.
Proof.
  induction d as [|[k v] d IH]; simpl.
  - by rewrite decide_True.
  - destruct (decide (k = uid)) as [->|Hne]; simpl.
    + by rewrite decide_True.
    + by rewrite decide_False.
Qed.

Lemma dict_lookup_set_other uid uid' sub (d : subs) :
  uid ≠ uid' -> dict_lookup uid' (dict_set uid sub d) = dict_lookup uid' d.
Proof.
  intros Hne. induction d as [|[k v] d IH]; simpl.
  - by rewrite decide_False.
  - destruct (decide (k = uid)) as [->|Hk]; simpl.
    + by rewrite !decide_False.
    + by rewrite IH.
Qed.

Lemma dict_set_keys_in uid sub (d : subs) k :
  k ∈ List.map fst (dict_set uid sub d) -> k = uid \/ k ∈ List.map fst d.
Proof.
  induction d as [|[k' v] d IH]; simpl; intros Hin.
  - apply elem_of_cons in Hin as [->|Hin]; [by left | by right].
  - destruct (decide (k' = uid)) as [->|Hne]; simpl in Hin.
    + by right.
    + apply elem_of_cons in Hin as [->|Hin]; [right; left|].
      destruct (IH Hin) as [->|Hin']; [by left | right; by right].
Qed.

(** Keys stay distinct, as in a dict. *)
Lemma dict_set_keys uid sub (d : subs) :
  NoDup (List.map fst d) -> NoDup (List.map fst (dict_set uid sub d)).
Proof.
  induction d as [|[k v] d IH]; simpl; intros Hd.
  - apply NoDup_singleton.
  - apply NoDup_cons in Hd as [Hk Hd].
    destruct (decide (k = uid)) as [->|Hne]; simpl.
    + by apply NoDup_cons.
    + apply NoDup_cons. split; [|by apply IH].
      intros Hin. by destruct (dict_set_keys_in _ _ _ _ Hin) as [->|Hin'].
Qed.

(** C9. [process_sub_time] either leaves the dict as it was and answers
    with an error, or stores for the user a time [hhmm h m] where [h] and
    [m] are the integers read left and right of the colon, 0 <= h <= 23 and
    0 <= m <= 59: two digits, a colon, two digits, which is what the clock
    of the worker shows at [h:m]. The message "7:30" is stored as "07:30";
    "24:00", "7:60" and "0730" leave the dict unchanged. *)
Theorem registration_stores_clock_format re_digit int_digit text uid data
    (subscriptions : subs) :
  ((fst (process_sub_time re_digit int_digit text uid data subscriptions) = subscriptions
   /\ (snd (process_sub_time re_digit int_digit text uid data subscriptions) = BadFormat
       \/ snd (process_sub_time re_digit int_digit text uid data subscriptions) = BadTime))
  \/ (exists hs ms h m,
        match_time re_digit (strip text) = true
        /\ split_colon [] (strip text) = [hs; ms]
        /\ int int_digit hs = Some h /\ int int_digit ms = Some m
        /\ 0 <= h <= 23 /\ 0 <= m <= 59
        /\ process_sub_time re_digit int_digit text uid data subscriptions
           = (dict_set uid
                {| city := sub_city data; time := hhmm h m; tz := Some (sub_tz data) |}
                subscriptions,
              Done (sub_city data) (hhmm h m))
        /\ hhmm h m = two_digits h ++ [58%N] ++ two_digits m
        /\ strftime_HM (h * 3600 + m * 60) = hhmm h m))
  /\ (forall d,
        process_sub_time ascii_re_digit ascii_int_digit (lit "7:30") uid d subscriptions
        = (dict_set uid {| city := sub_city d; time := lit "07:30"; tz := Some (sub_tz d) |}
             subscriptions,
           Done (sub_city d) (lit "07:30")))
  /\ fst (process_sub_time ascii_re_digit ascii_int_digit (lit "24:00") uid data
            subscriptions) = subscriptions
  /\ fst (process_sub_time ascii_re_digit ascii_int_digit (lit "7:60") uid data
            subscriptions) = subscriptions
  /\ fst (process_sub_time ascii_re_digit ascii_int_digit (lit "0730") uid data
            subscriptions) = subscriptions.
Proof.
  split; [|by repeat split].
  unfold process_sub_time.
  destruct (match_time re_digit (strip text)) eqn:Hre; simpl; [|left; by split; [|left]].
  unfold parse_time.
  destruct (split_colon [] (strip text)) as [|hs [|ms [|? ?]]] eqn:Hsp;
    try (left; by split; [|right]).
  destruct (int int_digit hs) as [h|] eqn:Hh; [|left; by split; [|right]].
  destruct (int int_digit ms) as [m|] eqn:Hm; [|left; by split; [|right]].
  destruct ((0 <=? h) && (h <=? 23) && (0 <=? m) && (m <=? 59)) eqn:Hrange;
    [|left; by split; [|right]].
  right. exists hs, ms, h, m.
  assert (0 <= h <= 23 /\ 0 <= m <= 59) as [Hhr Hmr].
  { repeat (apply andb_true_iff in Hrange as [Hrange ?]). lia. }
  repeat split; try done; try lia.
  - by apply hhmm_shape.
  - by apply strftime_HM_at.
Qed.

(** ** The broadcast worker *)

(** The requests and the deliveries for one user in a trace. *)
Definition is_fetch (uid : Z) (e : event) : bool :=
  match e with Fetch u _ _ _ => bool_decide (u = uid) | _ => false end.

Definition is_deliver (uid : Z) (e : event) : bool :=
  match e with Deliver u _ => bool_decide (u = uid) | _ => false end.

(** The local time of the subscriber at [now], as the worker formats it,
    is the delivery time of the subscription. *)
Definition due (now : Z) (sub : subscription) : Prop :=
  strftime_HM (now + default 0 (tz sub)) = time sub.

Global Instance due_decision now sub : Decision (due now sub).
Proof. unfold due. apply _. Defined.

(** The local time of the subscriber at [now] can be computed: the offset
    is one [timedelta] holds and the sum is one [datetime] holds. *)
Definition local_time_ok (now : Z) (sub : subscription) : Prop :=
  timedelta_ok (default 0 (tz sub)) && datetime_ok (now + default 0 (tz sub)) = true.

Global Instance local_time_ok_decision now sub : Decision (local_time_ok now sub).
Proof. unfold local_time_ok. apply _. Defined.

Section WorkerFacts.

Context {world weather : Type}.
Variable E : env world weather.

(** The card the worker would deliver to [uid] from the world [w]; [None]
    when the fetch gives nothing or the card cannot be formatted. *)
Definition card_for (uid : Z) (sub : subscription) (w : world) : option str :=
  match get_current E w (city sub) (get_prefs (user_settings E w) uid).1
          (get_prefs (user_settings E w) uid).2 with
  | (Some d, _, _) =>
      if truthy E d
      then format_current E d (get_prefs (user_settings E w) uid).1 else None
  | (None, _, _) => None
  end.

(** The claim that a tick asks for the weather of exactly the
    subscriptions that are due. *)
Definition fetched_iff_due (w : world) : Prop :=
  forall uid sub, (uid, sub) ∈ subscriptions E w ->
    (exists c u l, Fetch uid c u l ∈ (tick_body E w).1.2) <-> due (utc_now E w) sub.

Lemma get_current_events w c u l :
  (get_current E w c u l).1.2 = [] \/ (get_current E w c u l).1.2 = [LogFetchFailed].
Proof.
  unfold get_current. destruct (owm_get E w c _ _) as [[|status json] w1]; simpl.
  - by right.
  - destruct (negb (status =? 200)); simpl; [by right | by left].
Qed.


Lemma process_sub_overflow now uid sub w :
  ~ local_time_ok now sub -> process_sub E now uid sub w = (Raise, [], w).
Proof.
  intros Hok. unfold process_sub, local_time_ok in *. cbv zeta.
  by destruct (timedelta_ok _ && datetime_ok _).
Qed.

Lemma process_sub_not_due now uid sub w :
  local_time_ok now sub -> ~ due now sub ->
  process_sub E now uid sub w = (Normal, [], w).
Proof.
  intros Hok Hd. unfold process_sub, local_time_ok in *. cbv zeta.
  rewrite Hok. cbn [negb]. by rewrite decide_False by exact Hd.
Qed.

(** What one subscription that is due makes of the tick. *)
Lemma process_sub_due now uid sub w :
  local_time_ok now sub -> due now sub ->
  let u := (get_prefs (user_settings E w) uid).1 in
  let l := (get_prefs (user_settings E w) uid).2 in
  let fetch := get_current E w (city sub) u l in
  let evs := [LogSending uid (city sub); Fetch uid (city sub) u l] ++ fetch.1.2 in
  process_sub E now uid sub w =
    match fetch.1.1 with
    | Some d =>
        if truthy E d then
          match format_current E d u with
          | None => (Raise, evs, fetch.2)
          | Some card =>
              let sent := send_message E fetch.2 uid (daily_header ++ card) in
              if sent.1
              then (Normal, evs ++ [Deliver uid (daily_header ++ card)], sent.2)
              else (Normal,
                    evs ++ [Deliver uid (daily_header ++ card); LogNotDelivered uid],
                    sent.2)
          end
        else (Normal, evs, fetch.2)
    | None => (Normal, evs, fetch.2)
    end.
Proof.
  intros Hok Hd. unfold process_sub, local_time_ok in *. cbv zeta.
  rewrite Hok. cbn [negb]. rewrite decide_True by exact Hd.
  destruct (get_prefs (user_settings E w) uid) as [u l]. cbn [fst snd].
  destruct (get_current E w (city sub) u l) as [[[d|] ev] w1]; cbn [fst snd];
    [|reflexivity].
  destruct (truthy E d); [|reflexivity].
  destruct (format_current E d u) as [card|]; [|reflexivity].
  by destruct (send_message E w1 uid (daily_header ++ card)) as [[] w2].
Qed.

Lemma due_dec now sub : due now sub \/ ~ due now sub.
Proof. destruct (decide (due now sub)); auto. Qed.

Lemma filter_fetch_log uid w c u l :
  List.filter (is_fetch uid) (get_current E w c u l).1.2 = []
  /\ List.filter (is_deliver uid) (get_current E w c u l).1.2 = [].
Proof. by destruct (get_current_events w c u l) as [-> | ->]. Qed.

(** The requests and deliveries of one subscription. *)
Lemma process_sub_trace now uid sub w uid' :
  List.filter (is_fetch uid') (process_sub E now uid sub w).1.2
  = (if decide (uid = uid' /\ local_time_ok now sub /\ due now sub)
     then [Fetch uid (city sub) (get_prefs (user_settings E w) uid).1
             (get_prefs (user_settings E w) uid).2]
     else [])
  /\ List.filter (is_deliver uid') (process_sub E now uid sub w).1.2
     = (if decide (uid = uid' /\ local_time_ok now sub /\ due now sub)
        then match card_for uid sub w with
             | Some card => [Deliver uid (daily_header ++ card)]
             | None => []
             end
        else []).
Proof.
  destruct (decide (local_time_ok now sub)) as [Hok|Hok]; cycle 1.
  { rewrite (process_sub_overflow _ _ _ _ Hok). simpl.
    destruct (decide (uid = uid' /\ _)) as [(_ & ? & _)|]; done. }
  destruct (due_dec now sub) as [Hd|Hd].
  - rewrite (process_sub_due _ _ _ _ Hok Hd). unfold card_for. cbv zeta.
    pose proof (filter_fetch_log uid' w (city sub)
                  (get_prefs (user_settings E w) uid).1
                  (get_prefs (user_settings E w) uid).2) as [Hf Hl].
    destruct (get_current E w (city sub) _ _) as [[[d|] ev] w1]; simpl in *.
    + destruct (truthy E d); [destruct (format_current E d _) as [card|];
        [destruct (send_message E w1 uid _) as [[] w2]|]|];
      simpl; rewrite ?List.filter_app, ?Hf, ?Hl; simpl;
      destruct (decide (uid = uid' /\ _)) as [[-> _]|Hn];
      rewrite ?bool_decide_true by done; try done;
      rewrite ?bool_decide_false by (intros ->; by apply Hn); done.
    + rewrite Hf, Hl.
      destruct (decide (uid = uid' /\ _)) as [[-> _]|Hn];
      rewrite ?bool_decide_true by done; try done;
      rewrite ?bool_decide_false by (intros ->; by apply Hn); done.
  - rewrite (process_sub_not_due _ _ _ _ Hok Hd). simpl.
    destruct (decide (uid = uid' /\ _)) as [(_ & _ & ?)|]; done.
Qed.

Lemma for_subs_cons now uid sub rest w :
  for_subs E now ((uid, sub) :: rest) w =
    match (process_sub E now uid sub w).1.1 with
    | Normal =>
        ((for_subs E now rest (process_sub E now uid sub w).2).1.1,
         (process_sub E now uid sub w).1.2
           ++ (for_subs E now rest (process_sub E now uid sub w).2).1.2,
         (for_subs E now rest (process_sub E now uid sub w).2).2)
    | Raise => process_sub E now uid sub w
    end.
Proof.
  simpl. destruct (process_sub E now uid sub w) as [[[] ev] w1]; simpl; [|reflexivity].
  by destruct (for_subs E now rest w1) as [[o ev'] w2].
Qed.

Lemma for_subs_app now l1 l2 w :
  for_subs E now (l1 ++ l2) w =
    match (for_subs E now l1 w).1.1 with
    | Normal =>
        ((for_subs E now l2 (for_subs E now l1 w).2).1.1,
         (for_subs E now l1 w).1.2 ++ (for_subs E now l2 (for_subs E now l1 w).2).1.2,
         (for_subs E now l2 (for_subs E now l1 w).2).2)
    | Raise => for_subs E now l1 w
    end.
Proof.
  revert w. induction l1 as [|[uid sub] l1 IH]; intros w.
  - simpl. by destruct (for_subs E now l2 w) as [[o ev] w2].
  - rewrite <- app_comm_cons, !for_subs_cons.
    destruct (process_sub E now uid sub w) as [[[] ev] w1]; simpl; [|reflexivity].
    rewrite IH. destruct (for_subs E now l1 w1) as [[[] ev1] w2]; simpl; [|reflexivity].
    by rewrite app_assoc.
Qed.

(** Subscriptions of other users ask and deliver nothing for [uid]. *)
Lemma for_subs_other now items w uid :
  uid ∉ List.map fst items ->
  List.filter (is_fetch uid) (for_subs E now items w).1.2 = []
  /\ List.filter (is_deliver uid) (for_subs E now items w).1.2 = [].
Proof.
  revert w. induction items as [|[uid' sub] items IH]; intros w Hnin; [done|].
  assert (uid' ≠ uid) as Hne by (intros ->; apply Hnin; simpl; left).
  assert (uid ∉ List.map fst items) as Hnin' by (intros ?; apply Hnin; simpl; by right).
  rewrite for_subs_cons.
  destruct (process_sub_trace now uid' sub w uid) as [Hf Hl].
  destruct (decide (uid' = uid /\ local_time_ok now sub /\ due now sub))
    as [[? _]|_]; [done|].
  destruct ((process_sub E now uid' sub w).1.1).
  - simpl. rewrite !List.filter_app, Hf, Hl.
    by destruct (IH (process_sub E now uid' sub w).2 Hnin') as [-> ->].
  - by rewrite Hf, Hl.
Qed.

End WorkerFacts.

(** *** Inputs for the examples *)

(** A small world: a clock, the subscriptions and what Telegram accepted.
    The weather service knows no "Atlantis" (status 404) and answers for
    "Oslo" with a body that lacks the keys of a weather card ([false]); user
    7 has blocked the bot. *)
Record demo_world := { clock : Z; store : subs; outbox : list (Z * str) }.

Definition demo : env demo_world bool := {|
  owm_get := fun w c u l =>
    (if decide (c = lit "Atlantis") then OwmResp 404 false
     else if decide (c = lit "Oslo") then OwmResp 200 false
     else OwmResp 200 true, w);
  truthy := fun _ => true;
  format_current := fun d u => if d then Some (lit "sunny") else None;
  send_message := fun w uid text =>
    if decide (uid = 7) then (false, w)
    else (true, {| clock := clock w; store := store w;
                   outbox := outbox w ++ [(uid, text)] |});
  utc_now := clock;
  local_second := fun w => clock w mod 60;
  sleep := fun d w => {| clock := clock w + d; store := store w; outbox := outbox w |};
  subscriptions := store;
  user_settings := fun _ => ∅
|}.

Definition at_0830 (c : string) : subscription :=
  {| city := lit c; time := lit "08:30"; tz := Some 3600 |}.

(** 07:30:00 UTC, half past eight for a subscriber one hour east. *)
Definition world_at (t : Z) (s : subs) : demo_world :=
  {| clock := t; store := s; outbox := [] |}.

Definition paris_only : demo_world := world_at 27000 [(42, at_0830 "Paris")].
Definition oslo_first : demo_world :=
  world_at 27000 [(1, at_0830 "Oslo"); (42, at_0830 "Paris")].
Definition atlantis_first : demo_world :=
  world_at 27000 [(1, at_0830 "Atlantis"); (42, at_0830 "Paris")].
Definition blocked_first : demo_world :=
  world_at 27000 [(7, at_0830 "Paris"); (42, at_0830 "Paris")].

Lemma tick_body_filter {world weather} (E : env world weather) f w :
  (forall d, f (Sleep d) = false) ->
  List.filter f (tick_body E w).1.2
  = List.filter f (for_subs E (utc_now E w) (subscriptions E w) w).1.2.
Proof.
  intros Hf. unfold tick_body. cbv zeta.
  destruct (for_subs E (utc_now E w) (subscriptions E w) w) as [[[] ev] w1]; simpl;
    [|reflexivity].
  rewrite List.filter_app. simpl. rewrite Hf. apply app_nil_r.
Qed.

Lemma fetch_in_filter uid c u l ev :
  Fetch uid c u l ∈ ev <-> Fetch uid c u l ∈ List.filter (is_fetch uid) ev.
Proof.
  rewrite !list_elem_of_In, filter_In. simpl.
  rewrite bool_decide_true by done. tauto.
Qed.

(** C3, as the code has it. In a tick, a subscription that the loop
    reaches (no exception was raised for a subscription before it) has the
    local time of its subscriber computed as UTC-now plus the stored offset
    and formatted as "HH:MM". When that sum cannot be computed (the offset
    is outside the range of [timedelta], or the local time outside the years
    of [datetime]) the tick is abandoned with nothing requested for the
    subscription. Otherwise the weather is requested for it exactly when the
    string equals its delivery time, and then once; one delivery follows
    when the request gives a card, none otherwise; when the strings differ
    nothing is requested or delivered. *)
Theorem tick_fetches_when_due {world weather} (E : env world weather) w
    before uid sub rest :
  subscriptions E w = before ++ (uid, sub) :: rest ->
  NoDup (List.map fst (subscriptions E w)) ->
  (for_subs E (utc_now E w) before w).1.1 = Normal ->
  List.filter (is_fetch uid) (tick_body E w).1.2
  = (if decide (local_time_ok (utc_now E w) sub /\ due (utc_now E w) sub)
     then [Fetch uid (city sub)
             (get_prefs (user_settings E (for_subs E (utc_now E w) before w).2) uid).1
             (get_prefs (user_settings E (for_subs E (utc_now E w) before w).2) uid).2]
     else [])
  /\ List.filter (is_deliver uid) (tick_body E w).1.2
     = (if decide (local_time_ok (utc_now E w) sub /\ due (utc_now E w) sub)
        then match card_for E uid sub (for_subs E (utc_now E w) before w).2 with
             | Some card => [Deliver uid (daily_header ++ card)]
             | None => []
             end
        else [])
  /\ ((exists c u l, Fetch uid c u l ∈ (tick_body E w).1.2)
      <-> local_time_ok (utc_now E w) sub /\ due (utc_now E w) sub)
  /\ (~ local_time_ok (utc_now E w) sub ->
      (tick_body E w).1.1 = Raise
      /\ (tick_body E w).1.2 = (for_subs E (utc_now E w) before w).1.2
      /\ (tick_body E w).2 = (for_subs E (utc_now E w) before w).2).
Proof.
  intros Hsubs Hnodup Hbefore. rewrite Hsubs in Hnodup.
  rewrite map_app in Hnodup. simpl in Hnodup.
  apply NoDup_app in Hnodup as (_ & Hb & Hr).
  apply NoDup_cons in Hr as [Hrest _].
  assert (uid ∉ List.map fst before) as Hnb.
  { intros Hin. apply (Hb _ Hin). left. }
  clear Hb.
  assert (forall f, (f = is_fetch uid \/ f = is_deliver uid) ->
    List.filter f (tick_body E w).1.2
    = List.filter f
        (process_sub E (utc_now E w) uid sub (for_subs E (utc_now E w) before w).2).1.2)
    as Hred.
  { intros f Hf. rewrite tick_body_filter by (by destruct Hf as [-> | ->]).
    rewrite Hsubs, for_subs_app, Hbefore. cbn [fst snd].
    rewrite for_subs_cons, List.filter_app.
    pose proof (for_subs_other E (utc_now E w) before w uid Hnb) as [Hf1 Hd1].
    assert (List.filter f (for_subs E (utc_now E w) before w).1.2 = []) as ->
      by (by destruct Hf as [-> | ->]).
    simpl. destruct ((process_sub E _ uid sub _).1.1); [|reflexivity].
    cbn [fst snd]. rewrite List.filter_app.
    pose proof (for_subs_other E (utc_now E w) rest
                  (process_sub E (utc_now E w) uid sub
                     (for_subs E (utc_now E w) before w).2).2 uid Hrest) as [Hf2 Hd2].
    assert (List.filter f (for_subs E (utc_now E w) rest
              (process_sub E (utc_now E w) uid sub
                 (for_subs E (utc_now E w) before w).2).2).1.2 = []) as ->
      by (by destruct Hf as [-> | ->]).
    apply app_nil_r. }
  destruct (process_sub_trace E (utc_now E w) uid sub
              (for_subs E (utc_now E w) before w).2 uid) as [Hf Hd].
  assert (List.filter (is_fetch uid) (tick_body E w).1.2
          = if decide (local_time_ok (utc_now E w) sub /\ due (utc_now E w) sub)
            then [Fetch uid (city sub)
                    (get_prefs (user_settings E (for_subs E (utc_now E w) before w).2) uid).1
                    (get_prefs (user_settings E (for_subs E (utc_now E w) before w).2) uid).2]
            else []) as Hfetch.
  { rewrite (Hred _ (or_introl eq_refl)), Hf.
    destruct (decide (local_time_ok (utc_now E w) sub /\ due (utc_now E w) sub)) as [Hdue|Hdue].
    - by rewrite decide_True.
    - rewrite decide_False; [done | by intros [_ ?]]. }
  split; [exact Hfetch|]. split; [|split].
  - rewrite (Hred _ (or_intror eq_refl)), Hd.
    destruct (decide (local_time_ok (utc_now E w) sub /\ due (utc_now E w) sub)) as [Hdue|Hdue].
    + by rewrite decide_True.
    + rewrite decide_False; [done | by intros [_ ?]].
  - split.
    + intros (c & u & l & Hin). apply fetch_in_filter in Hin.
      rewrite Hfetch in Hin.
      destruct (decide (local_time_ok (utc_now E w) sub /\ due (utc_now E w) sub));
        [done | by apply elem_of_nil in Hin].
    + intros Hdue. rewrite decide_True in Hfetch by exact Hdue.
      eexists _, _, _. apply fetch_in_filter. rewrite Hfetch. left.
  - intros Hok. unfold tick_body. cbv zeta.
    rewrite Hsubs, for_subs_app, Hbefore. cbn [fst snd].
    rewrite for_subs_cons, (process_sub_overflow E _ _ _ _ Hok). cbn [fst snd].
    destruct (for_subs E (utc_now E w) before w) as [[o ev] w1]. cbn [fst snd].
    by rewrite app_nil_r.
Qed.

Lemma tick_fetches_when_due_witness :
  subscriptions demo paris_only = [] ++ (42, at_0830 "Paris") :: []
  /\ NoDup (List.map fst (subscriptions demo paris_only))
  /\ (for_subs demo (utc_now demo paris_only) [] paris_only).1.1 = Normal
  /\ List.filter (is_fetch 42) (tick_body demo paris_only).1.2
     = (if decide (local_time_ok (utc_now demo paris_only) (at_0830 "Paris") /\ due (utc_now demo paris_only) (at_0830 "Paris"))
        then [Fetch 42 (city (at_0830 "Paris"))
                (get_prefs (user_settings demo
                   (for_subs demo (utc_now demo paris_only) [] paris_only).2) 42).1
                (get_prefs (user_settings demo
                   (for_subs demo (utc_now demo paris_only) [] paris_only).2) 42).2]
        else [])
  /\ List.filter (is_deliver 42) (tick_body demo paris_only).1.2
     = (if decide (local_time_ok (utc_now demo paris_only) (at_0830 "Paris") /\ due (utc_now demo paris_only) (at_0830 "Paris"))
        then match card_for demo 42 (at_0830 "Paris")
                     (for_subs demo (utc_now demo paris_only) [] paris_only).2 with
             | Some card => [Deliver 42 (daily_header ++ card)]
             | None => []
             end
        else [])
  /\ ((exists c u l, Fetch 42 c u l ∈ (tick_body demo paris_only).1.2)
      <-> local_time_ok (utc_now demo paris_only) (at_0830 "Paris")
          /\ due (utc_now demo paris_only) (at_0830 "Paris"))
  /\ (~ local_time_ok (utc_now demo paris_only) (at_0830 "Paris") ->
      (tick_body demo paris_only).1.1 = Raise
      /\ (tick_body demo paris_only).1.2
         = (for_subs demo (utc_now demo paris_only) [] paris_only).1.2
      /\ (tick_body demo paris_only).2
         = (for_subs demo (utc_now demo paris_only) [] paris_only).2).
Proof.
  split; [reflexivity|].
  split; [apply (bool_decide_unpack _); vm_compute; reflexivity|].
  split; [reflexivity|].
  apply (tick_fetches_when_due demo paris_only [] 42 (at_0830 "Paris") []).
  - reflexivity.
  - apply (bool_decide_unpack _); vm_compute; reflexivity.
  - reflexivity.
Defined.

(** The scenario of user 42 in Paris: one request and one delivery in the
    tick of 08:30 local time, nothing one minute earlier or later. *)
Example paris_scenario :
  (tick_body demo paris_only).1.2
  = [LogSending 42 (lit "Paris"); Fetch 42 (lit "Paris") (lit "metric") (lit "ru");
     Deliver 42 (daily_header ++ lit "sunny"); Sleep 60]
  /\ (tick_body demo (world_at 26940 [(42, at_0830 "Paris")])).1.2 = [Sleep 60]
  /\ (tick_body demo (world_at 27060 [(42, at_0830 "Paris")])).1.2 = [Sleep 60]
  /\ (tick_body demo (world_at 27059 [(42, at_0830 "Paris")])).1.2
     = [LogSending 42 (lit "Paris"); Fetch 42 (lit "Paris") (lit "metric") (lit "ru");
        Deliver 42 (daily_header ++ lit "sunny"); Sleep 1].
Proof. vm_compute. by repeat split. Qed.

(** C3 as stated fails: the body for "Oslo" cannot be formatted, the
    exception leaves the loop, and the subscription of user 42, which is due
    in this tick, gets no request. *)
Lemma due_but_not_fetched : ~ fetched_iff_due demo oslo_first.
Proof.
  intros Hclaim.
  destruct (Hclaim 42 (at_0830 "Paris")) as [_ Hdue].
  - vm_compute. right. left.
  - destruct Hdue as (c & u & l & Hin); [vm_compute; reflexivity|].
    vm_compute in Hin.
    repeat (apply elem_of_cons in Hin as [Hin|Hin]; [discriminate|]).
    by apply elem_of_nil in Hin.
Qed.

(** *** Failures *)






(** The three failures in the small world: an unknown city, a user who
    blocked the bot, a body that cannot be formatted. *)
Example failures_in_a_tick :
  (tick_body demo atlantis_first).1.2
  = [LogSending 1 (lit "Atlantis");
     Fetch 1 (lit "Atlantis") (lit "metric") (lit "ru"); LogFetchFailed;
     LogSending 42 (lit "Paris"); Fetch 42 (lit "Paris") (lit "metric") (lit "ru");
     Deliver 42 (daily_header ++ lit "sunny"); Sleep 60]
  /\ (tick_body demo blocked_first).1.2
     = [LogSending 7 (lit "Paris"); Fetch 7 (lit "Paris") (lit "metric") (lit "ru");
        Deliver 7 (daily_header ++ lit "sunny"); LogNotDelivered 7;
        LogSending 42 (lit "Paris"); Fetch 42 (lit "Paris") (lit "metric") (lit "ru");
        Deliver 42 (daily_header ++ lit "sunny"); Sleep 60]
  /\ (tick_body demo oslo_first).1.1 = Raise
  /\ (iteration demo oslo_first).1
     = (Normal,
        [LogSending 1 (lit "Oslo"); Fetch 1 (lit "Oslo") (lit "metric") (lit "ru");
         LogWorkerError; Sleep 60])
  /\ state (broadcast_worker demo 3 oslo_first) = Running
  /\ passes (broadcast_worker demo 3 oslo_first) = 3%nat.
Proof. vm_compute. by repeat split. Qed.

(** An offset that takes the local time past the year 9999: the sum
    raises, the tick is abandoned before user 42 is reached, and the worker
    goes on after its sleep. The clock string of the sum would be the
    delivery time, but the sum is never made. *)
Definition far_east : subscription :=
  {| city := lit "Paris"; time := lit "08:30"; tz := Some (3600 + 86400 * 4000000) |}.

Definition far_east_first : demo_world :=
  world_at 27000 [(1, far_east); (42, at_0830 "Paris")].

Example offset_out_of_range :
  due 27000 far_east
  /\ ~ local_time_ok 27000 far_east
  /\ (tick_body demo far_east_first).1 = (Raise, [])
  /\ (iteration demo far_east_first).1 = (Normal, [LogWorkerError; Sleep 60])
  /\ trace (broadcast_worker demo 2 far_east_first)
     = [LogWorkerError; Sleep 60; LogWorkerError; Sleep 60].
Proof.
  split; [vm_compute; reflexivity|].
  split; [by vm_compute|].
  vm_compute. by repeat split.
Qed.

End BotFacts.

(** * More of the code *)

(** ** Where the items of a mix come from *)

Module NewsMore.
Import Py News SortFacts NewsFacts.

Lemma elem_of_collect a results :
  a ∈ collect results <-> exists res, Some res ∈ results /\ a ∈ res.
Proof.
  induction results as [|[res|] results IH]; simpl.
  - split; [intros Hin; by apply elem_of_nil in Hin|].
    intros (res & Hin & _). by apply elem_of_nil in Hin.
  - rewrite elem_of_app, IH. split.
    + intros [Hin|(res' & Hin & Ha)].
      * exists res. split; [left|]. destruct res; [by apply elem_of_nil in Hin | done].
      * exists res'. split; [by right | done].
    + intros (res' & Hin & Ha). apply elem_of_cons in Hin as [Heq|Hin].
      * injection Heq as ->. left. by destruct res; [apply elem_of_nil in Ha|].
      * right. by exists res'.
  - rewrite IH. split.
    + intros (res & Hin & Ha). exists res. split; [by right | done].
    + intros (res & Hin & Ha). apply elem_of_cons in Hin as [Heq|Hin]; [discriminate|].
      by exists res.
Qed.

Lemma elem_of_gather get sources res :
  Some res ∈ gather get sources <->
  exists name url, (name, url) ∈ sources /\ _fetch_source get name url = Some res.
Proof.
  unfold gather. rewrite list_elem_of_In, in_map_iff. split.
  - intros ([name url] & Heq & Hin). exists name, url.
    split; [by apply list_elem_of_In | done].
  - intros (name & url & Hin & Heq). exists (name, url).
    split; [done | by apply list_elem_of_In].
Qed.

Lemma _fetch_source_some get name url res :
  _fetch_source get name url = Some res <->
  exists entries, get url = Http 200 entries /\ entries <> []
    /\ existsb mktime_raises (take 10 entries) = false
    /\ res = List.map (stamp name) (List.map parse_entry (take 10 entries)).
Proof.
  unfold _fetch_source, fetch_feed. destruct (get url) as [|status entries].
  - split; [discriminate | by intros (? & ? & _)].
  - destruct (Z.eqb_spec status 200) as [->|Hne]; cbn [negb].
    + change (firstn 10 entries) with (take 10 entries).
      destruct (existsb mktime_raises (take 10 entries)) eqn:Hraise.
      * split; [discriminate|]. intros (? & [= <-] & _ & Hr & _). congruence.
      * destruct entries as [|e entries]; simpl.
        -- split; [discriminate | by intros (? & [= <-] & ? & _)].
        -- split.
           ++ intros [= <-]. by exists (e :: entries).
           ++ by intros (? & [= <-] & _ & _ & ->).
    + split; [discriminate|]. intros (? & [= ? _] & _). done.
Qed.

Lemma mix_articles_fetched lower get category m a :
  get_news_by_category lower get category = Some m ->
  a ∈ articles m -> a ∈ fetched get category.
Proof.
  intros Hm Ha. apply mix_sources_some in Hm. fold (sources_of category) in Hm.
  fold (fetched get category) in Hm. rewrite Hm in Ha.
  rewrite <- (sort_desc_perm (fetched get category)).
  eapply elem_of_sublist; [exact Ha|].
  etrans; [apply sublist_take | apply dedup_sublist].
Qed.

(** X1. Every item of a returned list was built from one of the first
    ten entries of a feed that answered with status 200, the feed of a source
    of the category, and carries the name of that source. *)
Theorem mix_items_come_from_sources lower get category m a :
  get_news_by_category lower get category = Some m ->
  a ∈ articles m ->
  exists name url entries e,
    (name, url) ∈ sources_of category
    /\ get url = Http 200 entries
    /\ e ∈ take 10 entries
    /\ a = stamp name (parse_entry e)
    /\ source_name a = Some name.
Proof.
  intros Hm Ha. pose proof (mix_articles_fetched _ _ _ _ _ Hm Ha) as Hf.
  unfold fetched in Hf. apply elem_of_collect in Hf as (res & Hres & Hin).
  apply elem_of_gather in Hres as (name & url & Hsrc & Hfetch).
  apply _fetch_source_some in Hfetch as (entries & Hget & _ & _ & ->).
  rewrite map_map in Hin. apply list_elem_of_In, in_map_iff in Hin as (e & <- & He).
  exists name, url, entries, e. repeat split; try done. by apply list_elem_of_In.
Qed.

Lemma mix_items_come_from_sources_witness :
  get_news_by_category lower_ascii storm_get (lit "sports")
    = Some {| source := smart_mix; articles := [storm_kept; cup_final] |}
  /\ (cup_final ∈ [storm_kept; cup_final])
  /\ exists name url entries e,
      (name, url) ∈ sources_of (lit "sports")
      /\ storm_get url = Http 200 entries
      /\ e ∈ take 10 entries
      /\ cup_final = stamp name (parse_entry e)
      /\ source_name cup_final = Some name.
Proof.
  split; [vm_compute; reflexivity|].
  split; [right; left|].
  apply (mix_items_come_from_sources lower_ascii storm_get (lit "sports")
           {| source := smart_mix; articles := [storm_kept; cup_final] |} cup_final).
  - vm_compute; reflexivity.
  - right; left.
Defined.

(** ** When a mix is empty, and what stands first *)

(** A source that gives nothing to the mix: its request fails, its
    status is not 200, its feed has no entry, or [time.mktime] raises on the
    date of one of its first ten entries. *)
Definition silent (get : str -> response) (s : str * str) : Prop :=
  forall entries, get (snd s) = Http 200 entries ->
    entries = [] \/ existsb mktime_raises (take 10 entries) = true.

Lemma _fetch_source_none get name url :
  _fetch_source get name url = None <-> silent get (name, url).
Proof.
  unfold silent. simpl. split.
  - intros Hnone entries Hget.
    destruct entries as [|e entries]; [by left|].
    destruct (existsb mktime_raises (take 10 (e :: entries))) eqn:Hraise; [by right|].
    assert (_fetch_source get name url
            = Some (List.map (stamp name)
                      (List.map parse_entry (take 10 (e :: entries))))) as Hsome
      by (apply _fetch_source_some; by exists (e :: entries)).
    congruence.
  - intros Hsilent. destruct (_fetch_source get name url) as [res|] eqn:Hf; [|done].
    apply _fetch_source_some in Hf as (entries & Hget & Hne & Hraise & _).
    destruct (Hsilent _ Hget) as [?|?]; [done | congruence].
Qed.

Lemma collect_nil_iff get sources :
  collect (gather get sources) = [] <-> Forall (silent get) sources.
Proof.
  induction sources as [|[name url] sources IH].
  - by split.
  - unfold gather in *. simpl.
    destruct (_fetch_source get name url) as [res|] eqn:Hf.
    + apply _fetch_source_some in Hf as Hf'.
      destruct Hf' as (entries & Hget & Hne & Hraise & ->).
      split.
      * destruct entries as [|e entries]; [done|]. discriminate.
      * intros Hall. apply Forall_cons_1 in Hall as [Hs _].
        destruct (Hs _ Hget) as [?|?]; [done | congruence].
    + rewrite IH. apply _fetch_source_none in Hf. split.
      * intros Hall. by constructor.
      * intros Hall. by apply Forall_cons_1 in Hall as [_ ?].
Qed.

Lemma dedup_head lower l a r :
  dedup lower ∅ (a :: l) = r -> exists r', r = a :: r'.
Proof.
  simpl. destruct (decide (normalize lower (title a) ∈ (∅ : gset str))) as [Hin|_].
  - by apply not_elem_of_empty in Hin.
  - intros <-. by eexists.
Qed.

Lemma mix_some_fetched lower get category m :
  get_news_by_category lower get category = Some m ->
  fetched get category <> []
  /\ articles m = take 7 (dedup lower ∅ (sort_desc (fetched get category))).
Proof.
  unfold get_news_by_category, mix_sources. fold (sources_of category).
  fold (fetched get category).
  destruct (fetched get category) as [|a all]; simpl; [discriminate|].
  intros [= <-]. by split.
Qed.

Lemma mix_none_iff lower get category :
  get_news_by_category lower get category = None <-> fetched get category = [].
Proof.
  unfold get_news_by_category, mix_sources. fold (sources_of category).
  fold (fetched get category).
  by destruct (fetched get category) as [|a all].
Qed.

(** X2. A call returns the empty result exactly when every source of
    the category is silent: its request fails, its status is not 200, its
    feed has no entry, or [time.mktime] raises on the date of one of its
    first ten entries. A result that is returned lists at least one item. *)
Theorem mix_empty_iff_all_silent lower get category :
  (get_news_by_category lower get category = None
   <-> Forall (silent get) (sources_of category))
  /\ (forall m, get_news_by_category lower get category = Some m ->
               articles m <> []).
Proof.
  split.
  - rewrite mix_none_iff. apply collect_nil_iff.
  - intros m Hm. apply mix_some_fetched in Hm as [Hne ->].
    destruct (sort_desc (fetched get category)) as [|b s] eqn:Hs.
    + exfalso. apply Hne. apply Permutation_nil_r. by rewrite <- Hs, sort_desc_perm.
    + by destruct (dedup_head lower s b _ eq_refl) as (r' & ->).
Qed.

(** X3. The first item of a returned list is the freshest item fetched:
    every item discovered before it is strictly older, and no item
    discovered after it is fresher. *)
Theorem mix_first_is_freshest lower get category m :
  get_news_by_category lower get category = Some m ->
  exists a rest l1 l2,
    articles m = a :: rest
    /\ fetched get category = l1 ++ a :: l2
    /\ Forall (fun b => timestamp b < timestamp a) l1
    /\ Forall (fun b => timestamp b <= timestamp a) l2.
Proof.
  intros Hm. apply mix_some_fetched in Hm as [Hne Hm].
  destruct (sort_desc (fetched get category)) as [|a s] eqn:Hs.
  - exfalso. apply Hne. apply Permutation_nil_r. by rewrite <- Hs, sort_desc_perm.
  - destruct (dedup_head lower s a _ eq_refl) as (r' & Hd). rewrite Hd in Hm.
    destruct (sort_desc_head _ _ _ Hs) as (l1 & l2 & Hf & H1 & H2).
    exists a, (take 6 r'), l1, l2. by repeat split.
Qed.

Lemma mix_first_is_freshest_witness :
  get_news_by_category lower_ascii storm_get (lit "sports")
    = Some {| source := smart_mix; articles := [storm_kept; cup_final] |}
  /\ exists a rest l1 l2,
      [storm_kept; cup_final] = a :: rest
      /\ fetched storm_get (lit "sports") = l1 ++ a :: l2
      /\ Forall (fun b => timestamp b < timestamp a) l1
      /\ Forall (fun b => timestamp b <= timestamp a) l2.
Proof.
  split; [vm_compute; reflexivity|].
  apply (mix_first_is_freshest lower_ascii storm_get (lit "sports")
           {| source := smart_mix; articles := [storm_kept; cup_final] |}).
  vm_compute; reflexivity.
Defined.

(** ** What a mix leaves out *)

Lemma desc_app_bound l1 l2 x y :
  desc (l1 ++ l2) -> x ∈ l1 -> y ∈ l2 -> timestamp y <= timestamp x.
Proof.
  induction l1 as [|z l1 IH]; intros Hd Hx Hy; [by apply elem_of_nil in Hx|].
  simpl in Hd. apply StronglySorted_inv in Hd as [Hd Hall].
  apply elem_of_cons in Hx as [->|Hx]; [|by apply IH].
  rewrite Forall_forall in Hall. apply Hall. apply elem_of_app. by right.
Qed.

Lemma freshest_bound lower all a b :
  freshest_of lower all a -> b ∈ all ->
  same_title lower (normalize lower (title a)) b ->
  timestamp b <= timestamp a.
Proof.
  intros (l1 & l2 & -> & H1 & H2) Hb Hsame.
  rewrite Forall_forall in H1, H2.
  apply elem_of_app in Hb as [Hb|Hb]; [specialize (H1 _ Hb Hsame); lia|].
  apply elem_of_cons in Hb as [->|Hb]; [lia | by apply H2].
Qed.

(** X4. A fetched item that is missing from the returned list is either
    a duplicate, by normalized title, of a listed item that is at least as
    fresh, or it fell to the cut: then the list has seven items and none of
    them is older than the missing one. *)
Theorem mix_omits_duplicates_or_older lower get category m b :
  get_news_by_category lower get category = Some m ->
  b ∈ fetched get category ->
  b ∉ articles m ->
  (exists a, a ∈ articles m
             /\ normalize lower (title a) = normalize lower (title b)
             /\ timestamp b <= timestamp a)
  \/ (length (articles m) = 7%nat
      /\ Forall (fun a => timestamp b <= timestamp a) (articles m)).
Proof.
  intros Hm Hb Hnb. apply mix_some_fetched in Hm as [_ Hm].
  assert (normalize lower (title b) ∈ titles lower (fetched get category)) as Ht.
  { unfold titles. apply list_elem_of_In, in_map_iff. exists b.
    split; [done | by apply list_elem_of_In]. }
  destruct (unique_articles_one lower _ _ Ht) as (a & Hone & Hsame & Hfresh).
  unfold unique_articles in Hone. unfold same_title in Hsame.
  assert (timestamp b <= timestamp a) as Hle.
  { apply (freshest_bound lower _ _ _ Hfresh Hb). unfold same_title. congruence. }
  set (unique := dedup lower ∅ (sort_desc (fetched get category))) in *.
  assert (a ∈ unique) as Ha.
  { assert (a ∈ filter (same_title lower (normalize lower (title b))) unique) as Hin
      by (rewrite Hone; left).
    by apply list_elem_of_filter in Hin as [_ ?]. }
  destruct (decide (a ∈ articles m)) as [Hin|Hout]; [left; by exists a|].
  right. rewrite Hm in Hout |- *.
  rewrite <- (take_drop 7 unique) in Ha. apply elem_of_app in Ha as [Ha|Ha]; [done|].
  assert (desc (take 7 unique ++ drop 7 unique)) as Hd.
  { rewrite take_drop. eapply desc_sublist; [apply dedup_sublist | apply sort_desc_sorted]. }
  split.
  - apply length_take_le.
    destruct (decide (7 <= length unique)%nat) as [|Hlt]; [done|].
    rewrite drop_ge in Ha by lia. by apply elem_of_nil in Ha.
  - apply Forall_forall. intros x Hx.
    pose proof (desc_app_bound _ _ _ _ Hd Hx Ha). lia.
Qed.

(** Nine items with distinct titles in the feed of "auto"; the oldest two
    fall to the cut. *)
Definition nine_get (url : str) : response :=
  if decide (url = lit "https://www.kolesa.ru/rss")
  then Http 200 [entry "a" 9; entry "b" 8; entry "c" 7; entry "d" 6; entry "e" 5;
                 entry "f" 4; entry "g" 3; entry "h" 2; entry "i" 1]
  else NetError.

Definition kolesa (t : string) (ts : Z) : article :=
  {| title := lit t; link := lit "#"; published := unknown_date; timestamp := ts;
     source_name := Some (lit "Kolesa.ru") |}.

Definition first_seven : list article :=
  [kolesa "a" 9; kolesa "b" 8; kolesa "c" 7; kolesa "d" 6; kolesa "e" 5;
   kolesa "f" 4; kolesa "g" 3].

Lemma mix_omits_duplicates_or_older_witness :
  get_news_by_category lower_ascii nine_get (lit "auto")
    = Some {| source := smart_mix; articles := first_seven |}
  /\ (kolesa "i" 1 ∈ fetched nine_get (lit "auto"))
  /\ (kolesa "i" 1 ∉ first_seven)
  /\ ((exists a, a ∈ first_seven
                /\ normalize lower_ascii (title a)
                   = normalize lower_ascii (title (kolesa "i" 1))
                /\ timestamp (kolesa "i" 1) <= timestamp a)
      \/ (length first_seven = 7%nat
          /\ Forall (fun a => timestamp (kolesa "i" 1) <= timestamp a) first_seven)).
Proof.
  assert (kolesa "i" 1 ∉ first_seven) as Hout.
  { intros Hin. repeat (apply elem_of_cons in Hin as [Hin|Hin]; [discriminate|]).
    by apply elem_of_nil in Hin. }
  split; [vm_compute; reflexivity|].
  split; [vm_compute; do 8 right; left|].
  split; [exact Hout|].
  apply (mix_omits_duplicates_or_older lower_ascii nine_get (lit "auto")
           {| source := smart_mix; articles := first_seven |} (kolesa "i" 1)).
  - vm_compute; reflexivity.
  - vm_compute; do 8 right; left.
  - exact Hout.
Defined.

End NewsMore.

(** ** Runs of calls to the rates cache *)

Module FinanceMore.
Import Py Finance FinanceFacts.

(** X5. While a non-empty table is cached, calls at any times that lie
    strictly within TTL of its fetch time, in any number and order and
    whatever the upstream would answer, return that table, ask no upstream
    and leave the cache as it is. *)
Theorem hits_while_fresh {rate} (s : service rate) calls :
  _cache s ≠ ∅ ->
  Forall (fun c => c.1 - _cache_time s < _ttl) calls ->
  Forall (fun c => returned c = Some (_cache s) /\ fetched c = false /\ after c = s)
    (run calls s)
  /\ count_fetches (run calls s) = 0%nat.
Proof.
  intros Hne Hall.
  assert (Forall (fun c => returned c = Some (_cache s) /\ fetched c = false
                           /\ after c = s) (run calls s)) as Hrun.
  { induction Hall as [|[now up] calls Hnow _ IH]; [constructor|].
    simpl in *. rewrite (get_rates_hit s now up Hne Hnow). simpl.
    constructor; [done | exact IH]. }
  split; [exact Hrun|].
  unfold count_fetches. induction Hrun as [|c cs (_ & Hf & _) _ IH]; [reflexivity|].
  simpl. by rewrite Hf.
Qed.

(** Three calls within the hour of the entry of [stale], the last one
    with the clock set back. *)
Definition within_the_hour : list (Z * upstream Z) :=
  [(100, Raised); (3599, ok ∅); (-5, Raised)].

Lemma hits_while_fresh_witness :
  _cache stale ≠ ∅
  /\ Forall (fun c => c.1 - _cache_time stale < _ttl) within_the_hour
  /\ Forall (fun c => returned c = Some (_cache stale) /\ fetched c = false
                      /\ after c = stale)
       (run within_the_hour stale)
  /\ count_fetches (run within_the_hour stale) = 0%nat.
Proof.
  assert (_cache stale ≠ ∅) as Hne.
  { intros He. apply (f_equal (fun m => m !! lit "RUB")) in He.
    vm_compute in He. discriminate. }
  assert (Forall (fun c => c.1 - _cache_time stale < _ttl) within_the_hour) as Hall
    by (repeat constructor).
  split; [exact Hne|]. split; [exact Hall|].
  exact (hits_while_fresh stale within_the_hour Hne Hall).
Defined.

(** The cache holds nothing, or the payload of a successful answer among
    [total], stamped with the time of that call. *)
Definition holds_an_answer {rate} (total : list (Z * upstream rate))
    (s : service rate) : Prop :=
  _cache s = ∅
  \/ exists now up, (now, up) ∈ total /\ payload_of up = Some (_cache s)
                   /\ _cache_time s = now.

Lemma run_holds_an_answer {rate} (total calls : list (Z * upstream rate)) s :
  calls ⊆ total -> holds_an_answer total s ->
  Forall (fun c => holds_an_answer total (after c)
                   /\ forall p, returned c = Some p ->
                        exists now up, (now, up) ∈ total /\ payload_of up = Some p
                                       /\ _cache_time (after c) = now)
    (run calls s).
Proof.
  revert s. induction calls as [|[now up] calls IH]; intros s Hsub Hinv; [constructor|].
  simpl.
  assert ((now, up) ∈ total) as Hin by (apply Hsub; left).
  assert (calls ⊆ total) as Hsub' by (intros c Hc; apply Hsub; by right).
  assert (holds_an_answer total (after (get_rates now up s))
          /\ forall p, returned (get_rates now up s) = Some p ->
               exists now' up', (now', up') ∈ total /\ payload_of up' = Some p
                                /\ _cache_time (after (get_rates now up s)) = now')
    as [Hinv' Hret].
  { destruct (miss_dec s now) as [Hm|[Hc Ht]].
    - rewrite (get_rates_miss _ _ _ Hm).
      destruct (payload_of up) as [p|] eqn:Hp; simpl.
      + split.
        * right. by exists now, up.
        * intros ? [= <-]. by exists now, up.
      + split; [exact Hinv | discriminate].
    - rewrite (get_rates_hit _ _ _ Hc Ht). simpl. split; [exact Hinv|].
      intros p [= <-]. by destruct Hinv as [?|Hinv]. }
  constructor; [by split | by apply IH].
Qed.

(** X6. In any run of calls on a new service, every table a call
    returns is the payload of a successful upstream answer of that run, and
    the timestamp the cache then holds is the time of the call that
    received that answer. *)
Theorem returned_tables_are_upstream_answers {rate} (calls : list (Z * upstream rate)) :
  Forall (fun c => forall p, returned c = Some p ->
            exists now up, (now, up) ∈ calls /\ payload_of up = Some p
                           /\ _cache_time (after c) = now)
    (run calls init).
Proof.
  eapply Forall_impl; [apply (run_holds_an_answer calls calls init)|].
  - done.
  - by left.
  - simpl. by intros c [_ ?].
Qed.

End FinanceMore.

(** ** bot.py: the life of a subscription *)

Module Subscriptions.
Import Py Bot BotFacts.

(** [uid in subscriptions] *)
Definition dict_mem (uid : Z) (d : subs) : bool :=
  bool_decide (uid ∈ List.map fst d).

(** [del subscriptions[uid]]: the item of that key goes, the others keep
    their order. *)
Fixpoint dict_del (uid : Z) (d : subs) : subs :=
  match d with
  | [] => []
  | (k, v) :: rest =>
      if decide (k = uid) then dict_del uid rest else (k, v) :: dict_del uid rest
  end.

(** [cb_unsub] for the user [uid]: the dict afterwards, and whether the
    message was edited to say that the broadcast is off. *)
Definition cb_unsub (uid : Z) (subscriptions : subs) : subs * bool :=
  if dict_mem uid subscriptions then (dict_del uid subscriptions, true)
  else (subscriptions, false).

Lemma dict_del_keys uid d k :
  k ∈ List.map fst (dict_del uid d) <-> k ≠ uid /\ k ∈ List.map fst d.
Proof.
  induction d as [|[k' v] d IH]; simpl.
  - split; [intros Hin; by apply elem_of_nil in Hin | intros [_ Hin]; by apply elem_of_nil in Hin].
  - destruct (decide (k' = uid)) as [->|Hne]; simpl.
    + rewrite IH, elem_of_cons. split; [tauto|].
      intros [Hk [->|Hin]]; [done | by split].
    + rewrite !elem_of_cons, IH. split.
      * intros [->|[Hk Hin]]; [split; [done | by left] | split; [done | by right]].
      * intros [Hk [->|Hin]]; [by left | right; by split].
Qed.

Lemma dict_lookup_none uid (d : subs) :
  dict_lookup uid d = None <-> uid ∉ List.map fst d.
Proof.
  induction d as [|[k v] d IH]; simpl.
  - split; [intros _ Hin; by apply elem_of_nil in Hin | done].
  - destruct (decide (k = uid)) as [->|Hne].
    + split; [discriminate | intros Hn; exfalso; apply Hn; left].
    + rewrite IH, elem_of_cons. split.
      * intros Hn [->|Hin]; done.
      * intros Hn Hin. apply Hn. by right.
Qed.

Lemma dict_lookup_del uid uid' (d : subs) :
  dict_lookup uid' (dict_del uid d)
  = if decide (uid' = uid) then None else dict_lookup uid' d.
Proof.
  induction d as [|[k v] d IH]; simpl.
  - by destruct (decide (uid' = uid)).
  - destruct (decide (k = uid)) as [->|Hne]; simpl.
    + rewrite IH. destruct (decide (uid' = uid)) as [->|Hne']; [done|].
      by rewrite decide_False by done.
    + rewrite IH. destruct (decide (uid' = uid)) as [->|Hne']; [|done].
      by rewrite decide_False.
Qed.

Lemma dict_del_absent uid (d : subs) :
  uid ∉ List.map fst d -> dict_del uid d = d.
Proof.
  induction d as [|[k v] d IH]; simpl; intros Hn; [done|].
  rewrite decide_False by (intros ->; apply Hn; left).
  f_equal. apply IH. intros Hin. apply Hn. by right.
Qed.

Lemma dict_del_set uid sub (d : subs) :
  uid ∉ List.map fst d -> dict_del uid (dict_set uid sub d) = d.
Proof.
  induction d as [|[k v] d IH]; simpl; intros Hn.
  - by rewrite decide_True.
  - assert (k ≠ uid) as Hne by (intros ->; apply Hn; left).
    rewrite decide_False by done. simpl. rewrite decide_False by done.
    f_equal. apply IH. intros Hin. apply Hn. by right.
Qed.

Lemma dict_del_sublist uid (d : subs) : dict_del uid d `sublist_of` d.
Proof.
  induction d as [|[k v] d IH]; simpl; [constructor|].
  destruct (decide (k = uid)); [by apply sublist_cons | by apply sublist_skip].
Qed.

(** X7. After [cb_unsub] the user has no subscription, every other user
    has the subscription they had, and the remaining items keep their order;
    a user without a subscription leaves the dict as it is. Unsubscribing
    right after a first registration gives back the dict from before. *)
Theorem unsubscribe_removes_only_the_user uid (d : subs) :
  dict_lookup uid (cb_unsub uid d).1 = None
  /\ (forall uid', uid' ≠ uid ->
        dict_lookup uid' (cb_unsub uid d).1 = dict_lookup uid' d)
  /\ (cb_unsub uid d).1 `sublist_of` d
  /\ (dict_lookup uid d = None -> cb_unsub uid d = (d, false))
  /\ (forall sub, dict_lookup uid d = None ->
        (cb_unsub uid (dict_set uid sub d)).1 = d).
Proof.
  unfold cb_unsub, dict_mem. repeat split.
  - case_bool_decide as Hin; simpl.
    + rewrite dict_lookup_del. by rewrite decide_True.
    + by apply dict_lookup_none.
  - intros uid' Hne. case_bool_decide; simpl; [|done].
    rewrite dict_lookup_del. by rewrite decide_False.
  - case_bool_decide; simpl; [apply dict_del_sublist | done].
  - intros Hnone. apply dict_lookup_none in Hnone. by rewrite bool_decide_false.
  - intros sub Hnone. apply dict_lookup_none in Hnone.
    rewrite bool_decide_true; simpl.
    + by apply dict_del_set.
    + destruct (decide (uid ∈ List.map fst (dict_set uid sub d))) as [|Hn]; [done|].
      apply dict_lookup_none in Hn. by rewrite dict_lookup_set in Hn.
Qed.

(** X8. A tick asks no weather and delivers nothing for a user who has
    no subscription when the tick starts, whatever the other subscriptions
    are and however their requests and deliveries end. *)
Theorem no_subscription_no_broadcast {world weather} (E : env world weather) w uid :
  dict_lookup uid (subscriptions E w) = None ->
  List.filter (is_fetch uid) (tick_body E w).1.2 = []
  /\ List.filter (is_deliver uid) (tick_body E w).1.2 = [].
Proof.
  intros Hnone. apply dict_lookup_none in Hnone.
  rewrite !tick_body_filter by done.
  by destruct (for_subs_other E (utc_now E w) (subscriptions E w) w uid Hnone)
    as [-> ->].
Qed.

Lemma no_subscription_no_broadcast_witness :
  dict_lookup 7 (subscriptions demo oslo_first) = None
  /\ List.filter (is_fetch 7) (tick_body demo oslo_first).1.2 = []
  /\ List.filter (is_deliver 7) (tick_body demo oslo_first).1.2 = [].
Proof.
  split; [reflexivity|].
  apply (no_subscription_no_broadcast demo oslo_first 7). reflexivity.
Defined.

Lemma process_sub_time_done re_digit int_digit text uid data (d : subs) c t :
  (process_sub_time re_digit int_digit text uid data d).2 = Done c t ->
  c = sub_city data
  /\ (process_sub_time re_digit int_digit text uid data d).1
     = dict_set uid {| city := sub_city data; time := t; tz := Some (sub_tz data) |} d.
Proof.
  unfold process_sub_time.
  destruct (match_time re_digit (strip text)); simpl; [|discriminate].
  destruct (parse_time int_digit (strip text)) as [t'|]; simpl; [|discriminate].
  by intros [= <- <-].
Qed.

Lemma dict_set_length uid sub (d : subs) :
  length (dict_set uid sub d)
  = if dict_mem uid d then length d else S (length d).
Proof.
  unfold dict_mem. induction d as [|[k v] d IH]; simpl; [done|].
  destruct (decide (k = uid)) as [->|Hne]; simpl.
  - rewrite bool_decide_true; [done | left].
  - rewrite IH. case_bool_decide as Hin.
    + rewrite bool_decide_true; [done | by right].
    + rewrite bool_decide_false; [done|].
      intros Hin'. apply elem_of_cons in Hin' as [->|Hin']; done.
Qed.

(** X9. When [process_sub_time] accepts a time, the user's subscription
    is the new one, with the city and the offset that [process_sub_city]
    put into the FSM data; every other user has the subscription they had;
    the user keeps one item in the dict (a second registration replaces the
    first in place); and keys that were distinct stay distinct. *)
Theorem registration_replaces_the_users_subscription
    re_digit int_digit text uid data (d : subs) c t :
  (process_sub_time re_digit int_digit text uid data d).2 = Done c t ->
  dict_lookup uid (process_sub_time re_digit int_digit text uid data d).1
  = Some {| city := sub_city data; time := t; tz := Some (sub_tz data) |}
  /\ (forall uid', uid ≠ uid' ->
        dict_lookup uid' (process_sub_time re_digit int_digit text uid data d).1
        = dict_lookup uid' d)
  /\ length (process_sub_time re_digit int_digit text uid data d).1
     = (if dict_mem uid d then length d else S (length d))
  /\ (NoDup (List.map fst d) ->
      NoDup (List.map fst (process_sub_time re_digit int_digit text uid data d).1)).
Proof.
  intros Hdone. apply process_sub_time_done in Hdone as [_ ->].
  split; [apply dict_lookup_set|]. split.
  - intros uid' Hne. by apply dict_lookup_set_other.
  - split; [apply dict_set_length | apply dict_set_keys].
Qed.

Lemma registration_replaces_the_users_subscription_witness :
  (process_sub_time ascii_re_digit ascii_int_digit (lit "7:30") 42
     {| sub_city := lit "Paris"; sub_tz := 3600 |}
     [(42, at_0830 "Oslo"); (7, at_0830 "Paris")]).2
  = Done (lit "Paris") (lit "07:30")
  /\ dict_lookup 42
       (process_sub_time ascii_re_digit ascii_int_digit (lit "7:30") 42
          {| sub_city := lit "Paris"; sub_tz := 3600 |}
          [(42, at_0830 "Oslo"); (7, at_0830 "Paris")]).1
     = Some {| city := sub_city {| sub_city := lit "Paris"; sub_tz := 3600 |};
               time := lit "07:30";
               tz := Some (sub_tz {| sub_city := lit "Paris"; sub_tz := 3600 |}) |}
  /\ (forall uid', 42 ≠ uid' ->
        dict_lookup uid'
          (process_sub_time ascii_re_digit ascii_int_digit (lit "7:30") 42
             {| sub_city := lit "Paris"; sub_tz := 3600 |}
             [(42, at_0830 "Oslo"); (7, at_0830 "Paris")]).1
        = dict_lookup uid' [(42, at_0830 "Oslo"); (7, at_0830 "Paris")])
  /\ length
       (process_sub_time ascii_re_digit ascii_int_digit (lit "7:30") 42
          {| sub_city := lit "Paris"; sub_tz := 3600 |}
          [(42, at_0830 "Oslo"); (7, at_0830 "Paris")]).1
     = (if dict_mem 42 [(42, at_0830 "Oslo"); (7, at_0830 "Paris")]
        then length [(42, at_0830 "Oslo"); (7, at_0830 "Paris")]
        else S (length [(42, at_0830 "Oslo"); (7, at_0830 "Paris")]))
  /\ (NoDup (List.map fst [(42, at_0830 "Oslo"); (7, at_0830 "Paris")]) ->
      NoDup (List.map fst
        (process_sub_time ascii_re_digit ascii_int_digit (lit "7:30") 42
           {| sub_city := lit "Paris"; sub_tz := 3600 |}
           [(42, at_0830 "Oslo"); (7, at_0830 "Paris")]).1)).
Proof.
  split; [reflexivity|].
  apply (registration_replaces_the_users_subscription ascii_re_digit ascii_int_digit
           (lit "7:30") 42 {| sub_city := lit "Paris"; sub_tz := 3600 |}
           [(42, at_0830 "Oslo"); (7, at_0830 "Paris")] (lit "Paris") (lit "07:30")).
  reflexivity.
Defined.

(** *** When a subscription is due *)

Lemma two_digits_inj a b :
  0 <= a <= 59 -> 0 <= b <= 59 -> two_digits a = two_digits b -> a = b.
Proof.
  intros Ha Hb Heq. unfold two_digits in Heq. injection Heq as H1 H2.
  apply Z2N.inj in H1; [|Z.div_mod_to_equations; lia..].
  apply Z2N.inj in H2; [|Z.div_mod_to_equations; lia..].
  Z.div_mod_to_equations. lia.
Qed.

Lemma hhmm_inj h m h' m' :
  0 <= h <= 23 -> 0 <= m <= 59 -> 0 <= h' <= 23 -> 0 <= m' <= 59 ->
  hhmm h m = hhmm h' m' -> h = h' /\ m = m'.
Proof.
  intros Hh Hm Hh' Hm' Heq. rewrite !hhmm_shape in Heq by done.
  unfold two_digits in Heq. simpl in Heq.
  injection Heq as H1 H2 H3 H4.
  split; apply two_digits_inj; try lia; unfold two_digits; congruence.
Qed.

(** The hour and the minute the clock shows at [t]. *)
Lemma clock_range t :
  0 <= t mod 86400 / 3600 <= 23 /\ 0 <= t mod 3600 / 60 <= 59.
Proof. Z.div_mod_to_equations. lia. Qed.

Lemma clock_minute t h m :
  0 <= h <= 23 -> 0 <= m <= 59 ->
  (t mod 86400 / 3600 = h /\ t mod 3600 / 60 = m)
  <-> h * 3600 + m * 60 <= t mod 86400 < h * 3600 + m * 60 + 60.
Proof. intros Hh Hm. Z.div_mod_to_equations. lia. Qed.

(** X10. A subscription whose delivery time was stored as [hhmm h m],
    0 <= h <= 23 and 0 <= m <= 59, is due exactly at the instants of the
    minute h:m of the subscriber's local day (UTC plus the stored offset):
    sixty consecutive seconds, the same ones every day. *)
Theorem due_during_its_minute now h m c offset :
  0 <= h <= 23 -> 0 <= m <= 59 ->
  (due now {| city := c; time := hhmm h m; tz := offset |}
   <-> h * 3600 + m * 60 <= (now + default 0 offset) mod 86400
                          < h * 3600 + m * 60 + 60)
  /\ (due (now + 86400) {| city := c; time := hhmm h m; tz := offset |}
      <-> due now {| city := c; time := hhmm h m; tz := offset |}).
Proof.
  intros Hh Hm.
  assert (forall t, strftime_HM t = hhmm h m
                    <-> h * 3600 + m * 60 <= t mod 86400 < h * 3600 + m * 60 + 60)
    as Hchar.
  { intros t. rewrite <- clock_minute by done. unfold strftime_HM.
    pose proof (clock_range t) as [HH HM]. split.
    - intros Heq. by apply hhmm_inj in Heq.
    - by intros [-> ->]. }
  unfold due. simpl. split; [apply Hchar|].
  rewrite !Hchar.
  replace (now + 86400 + default 0 offset) with (now + default 0 offset + 1 * 86400)
    by lia.
  by rewrite Z.mod_add by lia.
Qed.

Lemma due_during_its_minute_witness :
  0 <= 8 <= 23 /\ 0 <= 30 <= 59
  /\ (due 27059 {| city := lit "Paris"; time := hhmm 8 30; tz := Some 3600 |}
      <-> 8 * 3600 + 30 * 60 <= (27059 + default 0 (Some 3600)) mod 86400
                               < 8 * 3600 + 30 * 60 + 60)
  /\ (due (27059 + 86400) {| city := lit "Paris"; time := hhmm 8 30; tz := Some 3600 |}
      <-> due 27059 {| city := lit "Paris"; time := hhmm 8 30; tz := Some 3600 |}).
Proof.
  split; [lia|]. split; [lia|].
  apply (due_during_its_minute 27059 8 30 (lit "Paris") (Some 3600)); lia.
Defined.

Lemma due_shape now sub :
  due now sub ->
  exists h m, 0 <= h <= 23 /\ 0 <= m <= 59
              /\ time sub = two_digits h ++ [58%N] ++ two_digits m.
Proof.
  unfold due, strftime_HM. intros <-.
  pose proof (clock_range (now + default 0 (tz sub))) as [HH HM].
  eexists _, _. split; [exact HH|]. split; [exact HM|].
  by rewrite hhmm_shape.
Qed.

(** X11. A subscription is due only if its delivery time is a clock
    string: two digits of an hour up to 23, a colon, two digits of a minute
    up to 59. Times of any other form, which the dict can hold when it was
    loaded from the file, are due at no instant. *)
Theorem due_only_for_clock_strings now sub :
  due now sub ->
  exists h m, 0 <= h <= 23 /\ 0 <= m <= 59
              /\ time sub = two_digits h ++ [58%N] ++ two_digits m
              /\ length (time sub) = 5%nat.
Proof.
  intros Hdue. destruct (due_shape now sub Hdue) as (h & m & Hh & Hm & Ht).
  exists h, m. split; [done|]. split; [done|]. split; [done|]. by rewrite Ht.
Qed.

Lemma due_only_for_clock_strings_witness :
  due 27000 (at_0830 "Paris")
  /\ exists h m, 0 <= h <= 23 /\ 0 <= m <= 59
                 /\ time (at_0830 "Paris") = two_digits h ++ [58%N] ++ two_digits m
                 /\ length (time (at_0830 "Paris")) = 5%nat.
Proof.
  split; [vm_compute; reflexivity|].
  apply (due_only_for_clock_strings 27000 (at_0830 "Paris")).
  vm_compute; reflexivity.
Defined.

(** Times that never come: a missing zero, an hour 24, seconds. *)
Example never_due now c offset :
  ~ due now {| city := c; time := lit "8:30"; tz := offset |}
  /\ ~ due now {| city := c; time := lit "24:00"; tz := offset |}
  /\ ~ due now {| city := c; time := lit "08:30:00"; tz := offset |}.
Proof.
  repeat split; intros Hdue; apply due_shape in Hdue as (h & m & Hh & Hm & Ht);
    simpl in Ht; try discriminate.
  unfold two_digits in Ht. injection Ht as H1 H2 _ _.
  apply (f_equal Z.of_N) in H1, H2.
  rewrite Z2N.id in H1, H2 by (Z.div_mod_to_equations; lia).
  change (Z.of_N 50) with 50 in H1. change (Z.of_N 52) with 52 in H2.
  Z.div_mod_to_equations. lia.
Qed.

End Subscriptions.

(** ** bot.py: ThrottlingMiddleware *)

Module Throttling.
Import Py.

(** The middleware: its rate and the time of the last event it passed on
    for each user. Times are readings of [time.time()] and the rate is in
    the same unit, taken as exact numbers. *)
Record middleware := { rate : Z; _last : gmap Z Z }.

(** [ThrottlingMiddleware.__init__] *)
Definition __init__ (r : Z) : middleware := {| rate := r; _last := ∅ |}.

(** What matters of an event: [data.get("event_from_user")] as a user id,
    and whether the event is a [Message]. *)
Record update := { user : option Z; is_message : bool }.

(** An event is passed on to the handler or dropped; a dropped message is
    answered with the request to wait. *)
Inductive verdict := Passed | Dropped (answered : bool).

Global Instance verdict_eq_dec : EqDecision verdict.
Proof. solve_decision. Defined.

(** [ThrottlingMiddleware.__call__] at the time [now]. *)
Definition __call__ (now : Z) (ev : update) (m : middleware) : verdict * middleware :=
  match user ev with
  | Some uid =>
      if now - default 0 (_last m !! uid) <? rate m
      then (Dropped (is_message ev), m)
      else (Passed, {| rate := rate m; _last := <[uid := now]> (_last m) |})
  | None => (Passed, m)
  end.

(** The events of a run with their times, each with its verdict, and the
    middleware afterwards. *)
Fixpoint run (events : list (Z * update)) (m : middleware)
  : list (Z * update * verdict) * middleware :=
  match events with
  | [] => ([], m)
  | (now, ev) :: rest =>
      let '(v, m1) := __call__ now ev m in
      let '(vs, m2) := run rest m1 in
      ((now, ev, v) :: vs, m2)
  end.

(** The times at which events of [uid] were passed on. *)
Fixpoint passed_times (uid : Z) (results : list (Z * update * verdict)) : list Z :=
  match results with
  | [] => []
  | (now, ev, Passed) :: rest =>
      if decide (user ev = Some uid) then now :: passed_times uid rest
      else passed_times uid rest
  | (_, _, Dropped _) :: rest => passed_times uid rest
  end.

(** Each time is at least [r] after the one before it, the first after
    [prev]. *)
Fixpoint spaced (r prev : Z) (times : list Z) : Prop :=
  match times with
  | [] => True
  | t :: rest => r <= t - prev /\ spaced r t rest
  end.

(** No event of [uid] was passed on. *)
Definition all_dropped (uid : Z) (results : list (Z * update * verdict)) : Prop :=
  Forall (fun r => user r.1.2 = Some uid -> r.2 <> Passed) results.

Lemma run_cons now ev rest m :
  run ((now, ev) :: rest) m
  = ((now, ev, (__call__ now ev m).1) :: (run rest (__call__ now ev m).2).1,
     (run rest (__call__ now ev m).2).2).
Proof.
  simpl. destruct (__call__ now ev m) as [v m1]. simpl.
  by destruct (run rest m1) as [vs m2].
Qed.

Lemma __call___rate now ev m : rate (__call__ now ev m).2 = rate m.
Proof.
  unfold __call__. destruct (user ev) as [uid|]; [|done].
  by destruct (now - default 0 (_last m !! uid) <? rate m).
Qed.

(** What a call does to the last time of [uid]. *)
Lemma __call___last now ev m uid :
  _last (__call__ now ev m).2 !! uid
  = if decide (user ev = Some uid /\ (__call__ now ev m).1 = Passed)
    then Some now else _last m !! uid.
Proof.
  unfold __call__. destruct (user ev) as [uid'|] eqn:Hu.
  - destruct (now - default 0 (_last m !! uid') <? rate m); cbn [fst snd _last].
    + rewrite decide_False; [done | by intros [_ ?]].
    + destruct (decide (uid' = uid)) as [->|Hne].
      * rewrite decide_True by done. apply lookup_insert_eq.
      * rewrite decide_False by (intros [[= ?] _]; done).
        by apply lookup_insert_ne.
  - cbn [fst snd]. rewrite decide_False; [done | by intros [? _]].
Qed.

Lemma run_all_dropped events m uid :
  all_dropped uid (run events m).1 ->
  _last (run events m).2 !! uid = _last m !! uid
  /\ rate (run events m).2 = rate m.
Proof.
  revert m. induction events as [|[now ev] events IH]; intros m Hall; [done|].
  rewrite run_cons in *. simpl in *.
  apply Forall_cons_1 in Hall as [Hev Hall]. simpl in Hev.
  destruct (IH _ Hall) as [-> ->]. split; [|apply __call___rate].
  rewrite __call___last. rewrite decide_False; [done|].
  intros [Hu Hp]. by apply Hev.
Qed.

(** X12. After an event of a user was passed on at time [now], and
    whatever came in between from this or other users as long as none of
    this user's events was passed on, the next event of the user is passed
    on exactly when at least [rate] has gone by since [now]: dropped events
    do not prolong the wait, and other users do not matter. *)
Theorem passed_again_after_rate m now uid msg mid now' msg' :
  (__call__ now {| user := Some uid; is_message := msg |} m).1 = Passed ->
  all_dropped uid
    (run mid (__call__ now {| user := Some uid; is_message := msg |} m).2).1 ->
  (__call__ now' {| user := Some uid; is_message := msg' |}
     (run mid (__call__ now {| user := Some uid; is_message := msg |} m).2).2).1
  = Passed
  <-> rate m <= now' - now.
Proof.
  intros Hp Hmid. destruct (run_all_dropped _ _ _ Hmid) as [Hl Hr].
  rewrite __call___last in Hl. rewrite decide_True in Hl by done.
  rewrite __call___rate in Hr.
  unfold __call__ at 1. simpl. rewrite Hl, Hr. simpl.
  destruct (Z.ltb_spec (now' - now) (rate m)); split; (done || lia).
Qed.

Lemma passed_again_after_rate_witness :
  (__call__ 1000 {| user := Some 7; is_message := true |} (__init__ 10)).1 = Passed
  /\ all_dropped 7
       (run [(1003, {| user := Some 7; is_message := true |});
             (1004, {| user := Some 8; is_message := false |});
             (1009, {| user := Some 7; is_message := true |})]
          (__call__ 1000 {| user := Some 7; is_message := true |} (__init__ 10)).2).1
  /\ ((__call__ 1010 {| user := Some 7; is_message := false |}
         (run [(1003, {| user := Some 7; is_message := true |});
               (1004, {| user := Some 8; is_message := false |});
               (1009, {| user := Some 7; is_message := true |})]
            (__call__ 1000 {| user := Some 7; is_message := true |} (__init__ 10)).2).2).1
      = Passed
      <-> rate (__init__ 10) <= 1010 - 1000).
Proof.
  assert (all_dropped 7
       (run [(1003, {| user := Some 7; is_message := true |});
             (1004, {| user := Some 8; is_message := false |});
             (1009, {| user := Some 7; is_message := true |})]
          (__call__ 1000 {| user := Some 7; is_message := true |} (__init__ 10)).2).1)
    as Hmid.
  { vm_compute. repeat constructor; simpl; intros; discriminate. }
  split; [reflexivity|]. split; [exact Hmid|].
  exact (passed_again_after_rate (__init__ 10) 1000 7 true _ 1010 false eq_refl Hmid).
Defined.

(** X13. In every run, from any state of the middleware, the events of
    one user that are passed on are spaced: each comes at least [rate] after
    the one passed on before it, the first at least [rate] after the time
    the middleware held for the user (0 for a user it has not seen). *)
Theorem passed_events_are_spaced events m uid :
  spaced (rate m) (default 0 (_last m !! uid)) (passed_times uid (run events m).1).
Proof.
  revert m. induction events as [|[now ev] events IH]; intros m; [done|].
  rewrite run_cons. cbn [fst snd passed_times].
  specialize (IH (__call__ now ev m).2).
  rewrite __call___rate, __call___last in IH.
  destruct ((__call__ now ev m).1) eqn:Hv.
  - destruct (decide (user ev = Some uid)) as [Hu|Hu].
    + rewrite decide_True in IH by done. simpl in IH |- *. split; [|exact IH].
      unfold __call__ in Hv. rewrite Hu in Hv.
      destruct (Z.ltb_spec (now - default 0 (_last m !! uid)) (rate m));
        [discriminate | lia].
    + rewrite decide_False in IH by (by intros [? _]). exact IH.
  - rewrite decide_False in IH by (by intros [_ ?]). exact IH.
Qed.

End Throttling.

(** ** bot.py: favorite cities *)

Module Favorites.
Import Py.

(** [MAX_FAVORITES] of config.py. *)
Definition MAX_FAVORITES : nat := 5.

(** An inline button: its text and its callback data. *)
Record button := { text : str; callback_data : str }.

Definition city_label : str := [127961; 32]%N.
Definition clear_label : str :=
  [128465; 32; 1054; 1095; 1080; 1089; 1090; 1080; 1090; 1100; 32; 1074; 1089;
   1105]%N.

(** [favorites_inline]: one row per city and a last row to clear the
    list; [None] for a user without cities. *)
Definition favorites_inline (user_id : Z) (favorites : gmap Z (list str))
  : option (list (list button)) :=
  let cities := default [] (favorites !! user_id) in
  match cities with
  | [] => None
  | _ =>
      Some (List.map (fun c => [{| text := city_label ++ c;
                                   callback_data := lit "fav:" ++ c |}]) cities
            ++ [[{| text := clear_label; callback_data := lit "clear_fav" |}]])
  end.

(** [s.split(":", 1)] *)
Fixpoint split_once (cur : str) (s : str) : list str :=
  match s with
  | [] => [rev cur]
  | c :: r => if (c =? 58)%N then [rev cur; r] else split_once (c :: cur) r
  end.

(** The city [cb_fav_city] asks the weather for:
    [callback.data.split(":", 1)[1]]; [None] is the [IndexError]. *)
Definition cb_fav_city (data : str) : option str := split_once [] data !! 1%nat.

(** What [cb_add_fav] answers. *)
Inductive reply :=
  | AskFirst
  | Already (city : str)
  | Full
  | Added (name : str).

(** What [show_current] keeps in [last_query] for a user, as far as the
    favorites use it: the value of ["city"]. *)
Record query := { q_city : option str }.

Section Handlers.

(** [str.lower] *)
Variable lower : str -> str.

(** [city.lower() in [c.lower() for c in user_favs]] *)
Definition known (city : str) (user_favs : list str) : bool :=
  bool_decide (lower city ∈ List.map lower user_favs).

(** [cb_add_fav] for the user [uid]: the test of the length and the
    [append] to the list follow each other with no [await] between them. The
    dict afterwards holds a list for the user whenever the user had asked
    for a city ([setdefault]). *)
Definition cb_add_fav (uid : Z) (last_query : gmap Z query)
    (favorites : gmap Z (list str)) : gmap Z (list str) * reply :=
  match last_query !! uid ≫= q_city with
  | None | Some [] => (favorites, AskFirst)
  | Some city =>
      let user_favs := default [] (favorites !! uid) in
      let favorites1 := <[uid := user_favs]> favorites in
      if known city user_favs then (favorites1, Already city)
      else if (MAX_FAVORITES <=? length user_favs)%nat then (favorites1, Full)
      else (<[uid := user_favs ++ [city]]> favorites, Added city)
  end.

(** [cb_clear_fav]: [favorites.pop(uid, None)] *)
Definition cb_clear_fav (uid : Z) (favorites : gmap Z (list str))
  : gmap Z (list str) :=
  delete uid favorites.

(** A press of one of the two buttons; [last_query] is the dict as the
    callback finds it. *)
Inductive callback :=
  | AddFav (uid : Z) (last_query : gmap Z query)
  | ClearFav (uid : Z).

Definition handle (favorites : gmap Z (list str)) (cb : callback)
  : gmap Z (list str) :=
  match cb with
  | AddFav uid last_query => (cb_add_fav uid last_query favorites).1
  | ClearFav uid => cb_clear_fav uid favorites
  end.

(** The callbacks of a list handled one after the other. *)
Definition handle_all (cbs : list callback) (favorites : gmap Z (list str))
  : gmap Z (list str) :=
  fold_left handle cbs favorites.

(** No list is longer than the maximum. *)
Definition capped (favorites : gmap Z (list str)) : Prop :=
  map_Forall (fun _ favs => (length favs <= MAX_FAVORITES)%nat) favorites.

(** No list holds a city twice, whatever the case of the letters. *)
Definition distinct (favorites : gmap Z (list str)) : Prop :=
  map_Forall (fun _ favs => NoDup (List.map lower favs)) favorites.

End Handlers.

(** *** What the handlers keep *)

Section Facts.

Variable lower : str -> str.

Lemma capped_setdefault uid (favorites : gmap Z (list str)) :
  capped favorites -> capped (<[uid := default [] (favorites !! uid)]> favorites).
Proof.
  intros Hc. apply map_Forall_insert_2; [|exact Hc].
  destruct (favorites !! uid) as [favs|] eqn:Hf; simpl.
  - by apply (Hc uid).
  - unfold MAX_FAVORITES. lia.
Qed.

Lemma capped_append uid c (favorites : gmap Z (list str)) :
  capped favorites ->
  (MAX_FAVORITES <=? length (default [] (favorites !! uid)))%nat = false ->
  capped (<[uid := default [] (favorites !! uid) ++ [c]]> favorites).
Proof.
  intros Hc Hlen. apply map_Forall_insert_2; [|exact Hc].
  apply Nat.leb_gt in Hlen. rewrite length_app. simpl. lia.
Qed.

Lemma cb_add_fav_capped uid last_query (favorites : gmap Z (list str)) :
  capped favorites -> capped (cb_add_fav lower uid last_query favorites).1.
Proof.
  intros Hc. unfold cb_add_fav.
  destruct (last_query !! uid ≫= q_city) as [[|c city]|]; [done| |done].
  cbv zeta. destruct (known lower _ _); [by apply capped_setdefault|].
  destruct (MAX_FAVORITES <=? _)%nat eqn:Hlen; [by apply capped_setdefault|].
  by apply capped_append.
Qed.

Lemma handle_capped cb (favorites : gmap Z (list str)) :
  capped favorites -> capped (handle lower favorites cb).
Proof.
  intros Hc. destruct cb as [uid last_query|uid]; simpl.
  - by apply cb_add_fav_capped.
  - unfold cb_clear_fav. by apply map_Forall_delete.
Qed.

(** X14. The two callbacks on the favorites never make a list longer than
    [MAX_FAVORITES]: when every user's list has at most five cities, so it
    is after [cb_add_fav], after [cb_clear_fav], and after any number of
    them handled one after the other, for every user and every last query.
    A user whose list is full and who asks for one more city is answered
    "maximum" and the list stays as it was. *)
Theorem favorites_stay_capped (favorites : gmap Z (list str)) :
  capped favorites ->
  (forall uid last_query, capped (cb_add_fav lower uid last_query favorites).1)
  /\ (forall uid, capped (cb_clear_fav uid favorites))
  /\ (forall cbs, capped (handle_all lower cbs favorites))
  /\ (forall uid last_query city favs,
        last_query !! uid ≫= q_city = Some city -> city <> [] ->
        favorites !! uid = Some favs ->
        lower city ∉ List.map lower favs ->
        length favs = MAX_FAVORITES ->
        cb_add_fav lower uid last_query favorites = (<[uid := favs]> favorites, Full)).
Proof.
  intros Hc. split; [|split; [|split]].
  - intros uid last_query. by apply cb_add_fav_capped.
  - intros uid. unfold cb_clear_fav. by apply map_Forall_delete.
  - intros cbs. revert favorites Hc. unfold handle_all.
    induction cbs as [|cb cbs IH]; intros favorites Hc; simpl; [done|].
    apply IH. by apply handle_capped.
  - intros uid last_query city favs Hq Hne Hf Hnin Hlen. unfold cb_add_fav.
    rewrite Hq. destruct city as [|c city]; [done|]. cbv zeta. rewrite Hf. simpl.
    unfold known. rewrite bool_decide_false by done.
    by rewrite Hlen.
Qed.

Lemma distinct_setdefault uid (favorites : gmap Z (list str)) :
  distinct lower favorites ->
  distinct lower (<[uid := default [] (favorites !! uid)]> favorites).
Proof.
  intros Hd. apply map_Forall_insert_2; [|exact Hd].
  destruct (favorites !! uid) as [favs|] eqn:Hf; simpl.
  - by apply (Hd uid).
  - constructor.
Qed.

(** X15. [cb_add_fav] keeps every list free of repeated cities, letters
    compared without case: a city that is in the user's list in any case is
    answered with "already there" and the list stays as it was. *)
Theorem cb_add_fav_keeps_cities_distinct uid last_query (favorites : gmap Z (list str)) :
  distinct lower favorites ->
  distinct lower (cb_add_fav lower uid last_query favorites).1
  /\ (forall city favs,
        last_query !! uid ≫= q_city = Some city -> city <> [] ->
        favorites !! uid = Some favs ->
        lower city ∈ List.map lower favs ->
        cb_add_fav lower uid last_query favorites
        = (<[uid := favs]> favorites, Already city)).
Proof.
  intros Hd. split.
  - unfold cb_add_fav.
    destruct (last_query !! uid ≫= q_city) as [[|c city]|]; [done| |done].
    cbv zeta. destruct (known lower _ _) eqn:Hk; [by apply distinct_setdefault|].
    destruct (MAX_FAVORITES <=? _)%nat; [by apply distinct_setdefault|].
    apply map_Forall_insert_2; [|exact Hd]. cbn [fst].
    unfold known in Hk. apply bool_decide_eq_false in Hk.
    rewrite map_app. simpl. apply NoDup_app. split; [|split].
    + destruct (favorites !! uid) as [favs|] eqn:Hf; simpl; [by apply (Hd uid)|constructor].
    + intros x Hx Hin. apply list_elem_of_singleton in Hin as ->. done.
    + apply NoDup_singleton.
  - intros city favs Hq Hne Hf Hin. unfold cb_add_fav. rewrite Hq.
    destruct city as [|c city]; [done|]. cbv zeta. rewrite Hf. simpl.
    unfold known. by rewrite bool_decide_true.
Qed.

End Facts.

(** Letters compared as ASCII, names left as typed: enough for examples. *)
Definition two_cities : gmap Z (list str) := {[ 7 := [lit "Oslo"; lit "Paris"] ]}.

Lemma favorites_stay_capped_witness :
  capped two_cities
  /\ (forall uid last_query, capped (cb_add_fav lower_ascii uid last_query two_cities).1)
  /\ (forall uid, capped (cb_clear_fav uid two_cities))
  /\ (forall cbs, capped (handle_all lower_ascii cbs two_cities))
  /\ (forall uid last_query city favs,
        last_query !! uid ≫= q_city = Some city -> city <> [] ->
        two_cities !! uid = Some favs ->
        lower_ascii city ∉ List.map lower_ascii favs ->
        length favs = MAX_FAVORITES ->
        cb_add_fav lower_ascii uid last_query two_cities
        = (<[uid := favs]> two_cities, Full)).
Proof.
  assert (capped two_cities) as Hc.
  { apply map_Forall_singleton. unfold MAX_FAVORITES. simpl. lia. }
  split; [exact Hc|].
  exact (favorites_stay_capped lower_ascii two_cities Hc).
Defined.

Lemma cb_add_fav_keeps_cities_distinct_witness :
  distinct lower_ascii two_cities
  /\ distinct lower_ascii
       (cb_add_fav lower_ascii 7 {[ 7 := {| q_city := Some (lit "PARIS") |} ]}
          two_cities).1
  /\ (forall city favs,
        ({[ 7 := {| q_city := Some (lit "PARIS") |} ]} : gmap Z query) !! 7 ≫= q_city
        = Some city -> city <> [] ->
        two_cities !! 7 = Some favs ->
        lower_ascii city ∈ List.map lower_ascii favs ->
        cb_add_fav lower_ascii 7 {[ 7 := {| q_city := Some (lit "PARIS") |} ]} two_cities
        = (<[7 := favs]> two_cities, Already city)).
Proof.
  assert (distinct lower_ascii two_cities) as Hd.
  { apply map_Forall_singleton. apply (bool_decide_unpack _). vm_compute. reflexivity. }
  split; [exact Hd|].
  exact (cb_add_fav_keeps_cities_distinct lower_ascii 7
           {[ 7 := {| q_city := Some (lit "PARIS") |} ]} two_cities Hd).
Defined.

(** Six presses for six cities: the sixth is answered "maximum". *)
Definition asked (c : string) : callback :=
  AddFav 7 {[ 7 := {| q_city := Some (lit c) |} ]}.

Example sixth_city_is_refused :
  handle_all lower_ascii [asked "Rome"; asked "Riga"; asked "Bern"] two_cities !! 7
  = Some [lit "Oslo"; lit "Paris"; lit "Rome"; lit "Riga"; lit "Bern"]
  /\ cb_add_fav lower_ascii 7 {[ 7 := {| q_city := Some (lit "Kyiv") |} ]}
       (handle_all lower_ascii [asked "Rome"; asked "Riga"; asked "Bern"] two_cities)
     = (handle_all lower_ascii [asked "Rome"; asked "Riga"; asked "Bern"] two_cities,
        Full)
  /\ handle_all lower_ascii [asked "Rome"; ClearFav 7; asked "Riga"] two_cities !! 7
     = Some [lit "Riga"].
Proof. vm_compute. by repeat split. Qed.

(** *** Buttons and their callback data *)

Lemma cb_fav_city_button c : cb_fav_city (lit "fav:" ++ c) = Some c.
Proof. reflexivity. Qed.

(** X16. Each city button of [favorites_inline] carries callback data
    from which [cb_fav_city] reads back exactly that city, also when the
    name contains colons; the keyboard has one such row per city of the
    user, in the order of the list, each with the one button that shows the
    city, and after them one more row, the last, with the one button that
    clears the list; a user with no city gets no keyboard. *)
Theorem favorite_buttons_round_trip user_id (favorites : gmap Z (list str)) :
  match favorites_inline user_id favorites with
  | None => default [] (favorites !! user_id) = []
  | Some kb =>
      exists cities, favorites !! user_id = Some cities
        /\ cities <> []
        /\ length kb = S (length cities)
        /\ (forall i c, cities !! i = Some c ->
             exists b, kb !! i = Some [b] /\ cb_fav_city (callback_data b) = Some c)
        /\ (forall i c, cities !! i = Some c ->
             kb !! i = Some [{| text := city_label ++ c;
                                callback_data := lit "fav:" ++ c |}])
        /\ kb !! length cities
           = Some [{| text := clear_label; callback_data := lit "clear_fav" |}]
        /\ last kb = Some [{| text := clear_label; callback_data := lit "clear_fav" |}]
  end.
Proof.
  unfold favorites_inline. cbv zeta.
  destruct (favorites !! user_id) as [cities|] eqn:Hf; simpl; [|done].
  destruct cities as [|c0 cities]; [done|].
  exists (c0 :: cities). split; [done|]. split; [done|].
  assert (forall i c, (c0 :: cities) !! i = Some c ->
    (List.map (fun c => [{| text := city_label ++ c;
                            callback_data := lit "fav:" ++ c |}]) (c0 :: cities)
     ++ [[{| text := clear_label; callback_data := lit "clear_fav" |}]]) !! i
    = Some [{| text := city_label ++ c; callback_data := lit "fav:" ++ c |}]) as Hrow.
  { intros i c Hi. rewrite lookup_app_l.
    - change (List.map ?f ?l) with (f <$> l). by rewrite list_lookup_fmap, Hi.
    - rewrite length_map. by apply lookup_lt_Some in Hi. }
  split; [|split; [|split; [|split]]].
  - rewrite length_app, length_map. simpl. lia.
  - intros i c Hi.
    exists {| text := city_label ++ c; callback_data := lit "fav:" ++ c |}.
    split; [by apply Hrow | apply cb_fav_city_button].
  - exact Hrow.
  - change (?x :: List.map ?f ?l) with (List.map f (c0 :: cities)).
    rewrite lookup_app_r by (by rewrite length_map).
    rewrite length_map. by rewrite Nat.sub_diag.
  - change (?x :: List.map ?f ?l ++ ?r) with ((x :: List.map f l) ++ r).
    apply last_snoc.
Qed.

End Favorites.

(** ** bot.py: units and language *)

Module Preferences.
Import Py Bot.

(** [user_settings[uid]] once [if uid not in user_settings:
    user_settings[uid] = {}] has run. *)
Definition settings_of (uid : Z) (user_settings : gmap Z settings) : settings :=
  default {| units := None; lang := None |} (user_settings !! uid).

(** [cb_set_units]: the unit is [callback.data.split(":")[1]]; [None] is
    the [IndexError] of data without a colon, raised before the dict is
    touched. *)
Definition cb_set_units (data : str) (uid : Z) (user_settings : gmap Z settings)
  : option (gmap Z settings) :=
  match split_colon [] data !! 1%nat with
  | Some unit =>
      let s := settings_of uid user_settings in
      Some (<[uid := {| units := Some unit; lang := lang s |}]> user_settings)
  | None => None
  end.

(** [cb_set_lang] *)
Definition cb_set_lang (data : str) (uid : Z) (user_settings : gmap Z settings)
  : option (gmap Z settings) :=
  match split_colon [] data !! 1%nat with
  | Some l =>
      let s := settings_of uid user_settings in
      Some (<[uid := {| units := units s; lang := Some l |}]> user_settings)
  | None => None
  end.

Lemma get_prefs_settings_of uid (user_settings : gmap Z settings) :
  get_prefs user_settings uid
  = (default (lit "metric") (units (settings_of uid user_settings)),
     default (lit "ru") (lang (settings_of uid user_settings))).
Proof.
  unfold get_prefs, settings_of. by destruct (user_settings !! uid).
Qed.

Lemma settings_of_insert uid s (user_settings : gmap Z settings) :
  settings_of uid (<[uid := s]> user_settings) = s.
Proof. unfold settings_of. by rewrite lookup_insert_eq. Qed.

(** X17. What [cb_set_units] stores is what [get_prefs] gives from then
    on as the user's units, with the language it gave before; what
    [cb_set_lang] stores is the language, with the units from before; the
    settings of every other user stay as they are. Data without a colon
    changes nothing. *)
Theorem preferences_round_trip data uid (user_settings : gmap Z settings) :
  match cb_set_units data uid user_settings with
  | Some us =>
      exists unit, split_colon [] data !! 1%nat = Some unit
        /\ get_prefs us uid = (unit, (get_prefs user_settings uid).2)
        /\ forall uid', uid' ≠ uid -> us !! uid' = user_settings !! uid'
  | None => split_colon [] data !! 1%nat = None
  end
  /\ match cb_set_lang data uid user_settings with
     | Some us =>
         exists l, split_colon [] data !! 1%nat = Some l
           /\ get_prefs us uid = ((get_prefs user_settings uid).1, l)
           /\ forall uid', uid' ≠ uid -> us !! uid' = user_settings !! uid'
     | None => split_colon [] data !! 1%nat = None
     end.
Proof.
  unfold cb_set_units, cb_set_lang.
  destruct (split_colon [] data !! 1%nat) as [v|]; [|done].
  cbv zeta. split; exists v; (split; [done|]); split.
  - by rewrite !get_prefs_settings_of, settings_of_insert.
  - intros uid' Hne. by apply lookup_insert_ne.
  - by rewrite !get_prefs_settings_of, settings_of_insert.
  - intros uid' Hne. by apply lookup_insert_ne.
Qed.

(** The two buttons of [units_inline]. *)
Example units_buttons uid (user_settings : gmap Z settings) :
  (fun us => get_prefs us uid) <$> cb_set_units (lit "set_units:imperial") uid user_settings
  = Some (lit "imperial", (get_prefs user_settings uid).2)
  /\ cb_set_units (lit "set_units") uid user_settings = None.
Proof.
  split; [|reflexivity].
  change (cb_set_units (lit "set_units:imperial") uid user_settings)
    with (Some (<[uid := {| units := Some (lit "imperial");
                            lang := lang (settings_of uid user_settings) |}]>
                  user_settings)).
  cbn [fmap option_fmap option_map].
  by rewrite !get_prefs_settings_of, settings_of_insert.
Qed.

End Preferences.

(** ** weather.py: the emoji of a weather card *)

Module Weather.
Import Py.

Definition thunder : str := [9928]%N.
Definition rain : str := [127783]%N.
Definition snow : str := [10052; 65039]%N.
Definition fog : str := [127787]%N.
Definition sun : str := [9728; 65039]%N.
Definition few_clouds : str := [127780]%N.
Definition scattered_clouds : str := [9925]%N.
Definition broken_clouds : str := [127781]%N.
Definition clouds : str := [9729; 65039]%N.
Definition rainbow : str := [127752]%N.

(** [WEATHER_EMOJI] *)
Definition WEATHER_EMOJI : list (Z * str) :=
  [ (2, thunder); (3, rain); (5, rain); (6, snow); (7, fog); (800, sun);
    (801, few_clouds); (802, scattered_clouds); (803, broken_clouds);
    (804, clouds) ].

(** [d[key]], [None] being the [KeyError], and [d.get(key, dflt)]. *)
Fixpoint lookup_key (d : list (Z * str)) (key : Z) : option str :=
  match d with
  | [] => None
  | (k, v) :: rest => if decide (k = key) then Some v else lookup_key rest key
  end.

Definition get_key (d : list (Z * str)) (key : Z) (dflt : str) : str :=
  default dflt (lookup_key d key).

(** [_weather_emoji]; [code // 100] rounds down. *)
Definition _weather_emoji (code : Z) : option str :=
  if decide (code = 800) then lookup_key WEATHER_EMOJI 800
  else if bool_decide (800 < code) && bool_decide (code <= 804)
  then Some (get_key WEATHER_EMOJI code clouds)
  else
    let group := code / 100 in
    Some (get_key WEATHER_EMOJI group rainbow).

(** The emoji of a hundreds group. *)
Definition group_emoji (group : Z) : str :=
  if decide (group = 2) then thunder
  else if decide (group = 3 \/ group = 5) then rain
  else if decide (group = 6) then snow
  else if decide (group = 7) then fog
  else if decide (group = 800) then sun
  else if decide (group = 801) then few_clouds
  else if decide (group = 802) then scattered_clouds
  else if decide (group = 803) then broken_clouds
  else if decide (group = 804) then clouds
  else rainbow.

Lemma get_key_group group : get_key WEATHER_EMOJI group rainbow = group_emoji group.
Proof.
  unfold get_key, group_emoji, WEATHER_EMOJI. simpl.
  repeat (destruct (decide (_ = group)) as [<-|?]; [reflexivity|]).
  simpl. repeat (rewrite decide_False by (try (intros [?|?]); congruence)).
  reflexivity.
Qed.

(** X18. [_weather_emoji] never fails and is decided by the hundreds of
    the code: thunder for 200-299, rain for 300-399 and 500-599, snow for
    600-699, fog for 700-799, the sun for 800, the four cloud emoji for
    801-804, and the rainbow for every other code below 80000, negative
    codes included. *)
Theorem weather_emoji_by_hundreds code :
  is_Some (_weather_emoji code)
  /\ (200 <= code <= 299 -> _weather_emoji code = Some thunder)
  /\ (300 <= code <= 399 \/ 500 <= code <= 599 -> _weather_emoji code = Some rain)
  /\ (600 <= code <= 699 -> _weather_emoji code = Some snow)
  /\ (700 <= code <= 799 -> _weather_emoji code = Some fog)
  /\ (code = 800 -> _weather_emoji code = Some sun)
  /\ (code = 801 -> _weather_emoji code = Some few_clouds)
  /\ (code = 802 -> _weather_emoji code = Some scattered_clouds)
  /\ (code = 803 -> _weather_emoji code = Some broken_clouds)
  /\ (code = 804 -> _weather_emoji code = Some clouds)
  /\ (code <= 199 \/ 400 <= code <= 499 \/ 805 <= code <= 79999 ->
      _weather_emoji code = Some rainbow).
Proof.
  assert (forall g, (g * 100 <= code < g * 100 + 100) -> code / 100 = g) as Hdiv.
  { intros g Hg. symmetry. apply Z.div_unique with (r := code - g * 100); lia. }
  assert (forall e, ~ (800 <= code <= 804) ->
            group_emoji (code / 100) = e -> _weather_emoji code = Some e) as Hgroup.
  { intros e Hout <-. unfold _weather_emoji.
    rewrite decide_False by lia.
    destruct (bool_decide (800 < code) && bool_decide (code <= 804)) eqn:Hin.
    - apply andb_true_iff in Hin as [H1 H2].
      apply bool_decide_eq_true in H1, H2. lia.
    - cbv zeta. by rewrite get_key_group. }
  split.
  { unfold _weather_emoji. destruct (decide (code = 800)); [by eexists|].
    destruct (_ && _); by eexists. }
  split; [intros H; apply Hgroup; [lia|]; by rewrite (Hdiv 2) by lia|].
  split.
  { intros [H|H]; apply Hgroup; try lia.
    - by rewrite (Hdiv 3) by lia.
    - by rewrite (Hdiv 5) by lia. }
  split; [intros H; apply Hgroup; [lia|]; by rewrite (Hdiv 6) by lia|].
  split; [intros H; apply Hgroup; [lia|]; by rewrite (Hdiv 7) by lia|].
  split; [by intros ->|]. split; [by intros ->|]. split; [by intros ->|].
  split; [by intros ->|]. split; [by intros ->|].
  intros H. apply Hgroup; [lia|].
  assert (code / 100 <= 1 \/ code / 100 = 4 \/ 8 <= code / 100 <= 799) as Hg
    by (Z.div_mod_to_equations; lia).
  unfold group_emoji.
  repeat (rewrite decide_False by lia). reflexivity.
Qed.

(** Far beyond the codes of the weather service the groups meet the keys
    of the 800 series again. *)
Example weather_emoji_80000 : _weather_emoji 80012 = Some sun.
Proof. reflexivity. Qed.

End Weather.

(** ** bot.py: the user's own RSS feeds *)

Module RssFeeds.
Import Py News.

(** [s.startswith(prefix)] *)
Fixpoint startswith (s prefix : str) : bool :=
  match prefix, s with
  | [], _ => true
  | p :: ps, c :: cs => (c =? p)%N && startswith cs ps
  | _ :: _, [] => false
  end.

(** [s.split("/")] *)
Fixpoint split_slash (cur : str) (s : str) : list str :=
  match s with
  | [] => [rev cur]
  | c :: r =>
      if (c =? 47)%N then rev cur :: split_slash [] r
      else split_slash (c :: cur) r
  end.

(** The title [cb_read_rss] gives to [format_feed]: [url.split("/")[2]];
    [None] is the [IndexError]. *)
Definition feed_title (url : str) : option str := split_slash [] url !! 2%nat.

(** The test of [rss_add_finish] on the URL. *)
Definition http_url (url : str) : bool :=
  startswith url (lit "http://") || startswith url (lit "https://").

(** What [rss_add_finish] answers. *)
Inductive reply :=
  | BadUrl
  | NoData
  | Duplicate
  | Added (found : nat).

(** [rss_add_finish] for the message [text] of user [uid]. [feeds_of]
    gives for a user the list under ["rss_feeds"] in the user's settings,
    where there is one; [get] is the network as [fetch_feed] sees it. *)
Definition rss_add_finish (text : str) (uid : Z) (get : str -> response)
    (feeds_of : gmap Z (list str)) : gmap Z (list str) * reply :=
  let url := strip text in
  if negb (http_url url) then (feeds_of, BadUrl)
  else
    match fetch_feed get url with
    | None | Some [] => (feeds_of, NoData)
    | Some data =>
        let feeds := default [] (feeds_of !! uid) in
        if bool_decide (url ∈ feeds) then (feeds_of, Duplicate)
        else (<[uid := feeds ++ [url]]> feeds_of, Added (length data))
    end.

(** Every list holds each URL once, and only URLs that passed the test. *)
Definition well_kept (feeds_of : gmap Z (list str)) : Prop :=
  map_Forall (fun _ feeds => NoDup feeds /\ Forall (fun u => http_url u = true) feeds)
    feeds_of.

Lemma split_slash_first cur s : exists x l, split_slash cur s = x :: l.
Proof.
  revert cur. induction s as [|c s IH]; intros cur; simpl; [by eexists _, _|].
  destruct (c =? 47)%N; [by eexists _, _ | apply IH].
Qed.

Lemma startswith_app s prefix :
  startswith s prefix = true -> exists rest, s = prefix ++ rest.
Proof.
  revert s. induction prefix as [|p ps IH]; intros s; simpl; [by exists s|].
  destruct s as [|c cs]; [discriminate|].
  intros [Hc Hs]%andb_true_iff. apply N.eqb_eq in Hc as ->.
  destruct (IH _ Hs) as (rest & ->). by exists rest.
Qed.

Lemma http_url_title url : http_url url = true -> is_Some (feed_title url).
Proof.
  unfold http_url, feed_title. intros [Hs|Hs]%orb_true_iff;
    apply startswith_app in Hs as (rest & ->); simpl;
    destruct (split_slash_first [] rest) as (x & l & ->); by eexists.
Qed.

Lemma fetch_feed_length get url data :
  fetch_feed get url = Some data -> (length data <= 10)%nat.
Proof.
  unfold fetch_feed. destruct (get url) as [|status entries]; [discriminate|].
  destruct (negb (status =? 200)); [discriminate|].
  destruct (existsb mktime_raises (firstn 10 entries)); [discriminate|].
  intros [= <-]. rewrite length_map. apply firstn_le_length.
Qed.

(** When [rss_add_finish] adds a feed, and what it does then. *)
Lemma rss_add_finish_added text uid get (feeds_of : gmap Z (list str)) n :
  (rss_add_finish text uid get feeds_of).2 = Added n <->
  (http_url (strip text) = true
   /\ (exists data, fetch_feed get (strip text) = Some data
                    /\ data <> [] /\ length data = n)
   /\ strip text ∉ default [] (feeds_of !! uid)).
Proof.
  unfold rss_add_finish. cbv zeta.
  destruct (http_url (strip text)); simpl; [|split; [done | by intros [? _]]].
  destruct (fetch_feed get (strip text)) as [[|a data]|].
  - split; [done | by intros (_ & (d & [= <-] & ? & _) & _)].
  - case_bool_decide as Hin; simpl.
    + split; [done | by intros (_ & _ & ?)].
    + split.
      * intros [= <-]. split; [done|]. split; [by exists (a :: data) | done].
      * by intros (_ & (d & [= <-] & _ & <-) & _).
  - split; [done | by intros (_ & (d & ? & _) & _)].
Qed.

Lemma rss_add_finish_store text uid get (feeds_of : gmap Z (list str)) :
  (rss_add_finish text uid get feeds_of).1
  = match (rss_add_finish text uid get feeds_of).2 with
    | Added _ => <[uid := default [] (feeds_of !! uid) ++ [strip text]]> feeds_of
    | _ => feeds_of
    end.
Proof.
  unfold rss_add_finish. cbv zeta.
  destruct (http_url (strip text)); simpl; [|done].
  destruct (fetch_feed get (strip text)) as [[|a data]|]; [done| |done].
  by case_bool_decide.
Qed.

(** X19. [rss_add_finish] keeps the lists of feeds well kept: no URL
    twice in a list, and only URLs that begin with http:// or https://. For
    every such URL the title [cb_read_rss] takes from it,
    [url.split("/")[2]], exists. A feed is added exactly when the URL
    passes the test, its fetch gave entries, and the user's list does not
    hold it yet; the number reported is the number of these entries, between
    1 and 10, and the URL is appended to the user's list. In every other
    case the lists stay as they were. *)
Theorem feeds_stay_well_kept text uid get (feeds_of : gmap Z (list str)) :
  well_kept feeds_of ->
  well_kept (rss_add_finish text uid get feeds_of).1
  /\ (forall uid' feeds url,
        (rss_add_finish text uid get feeds_of).1 !! uid' = Some feeds ->
        url ∈ feeds -> is_Some (feed_title url))
  /\ (forall n, (rss_add_finish text uid get feeds_of).2 = Added n ->
        (1 <= n <= 10)%nat
        /\ (rss_add_finish text uid get feeds_of).1 !! uid
           = Some (default [] (feeds_of !! uid) ++ [strip text]))
  /\ (forall n, (rss_add_finish text uid get feeds_of).2 = Added n <->
        (http_url (strip text) = true
         /\ (exists data, fetch_feed get (strip text) = Some data
                          /\ data <> [] /\ length data = n)
         /\ strip text ∉ default [] (feeds_of !! uid)))
  /\ (forall n, (rss_add_finish text uid get feeds_of).2 = Added n ->
        (rss_add_finish text uid get feeds_of).1
        = <[uid := default [] (feeds_of !! uid) ++ [strip text]]> feeds_of)
  /\ ((forall n, (rss_add_finish text uid get feeds_of).2 <> Added n) ->
      (rss_add_finish text uid get feeds_of).1 = feeds_of).
Proof.
  intros Hw.
  assert (well_kept (rss_add_finish text uid get feeds_of).1) as Hw'.
  { unfold rss_add_finish. cbv zeta.
    destruct (http_url (strip text)) eqn:Hu; simpl; [|done].
    destruct (fetch_feed get (strip text)) as [[|a data]|]; [done| |done].
    case_bool_decide as Hin; [done|]. cbn [fst].
    apply map_Forall_insert_2; [|exact Hw].
    destruct (feeds_of !! uid) as [feeds|] eqn:Hf; simpl.
    - destruct (Hw uid feeds Hf) as [Hnd Hall]. simpl in Hin.
      split.
      + apply NoDup_app. split; [done|]. split; [|apply NoDup_singleton].
        intros x Hx Hx'. apply list_elem_of_singleton in Hx' as ->. done.
      + apply Forall_app. split; [done | by constructor].
    - split; [apply NoDup_singleton | by constructor]. }
  split; [exact Hw'|]. split; [|split; [|split; [|split]]].
  - intros uid' feeds url Hf Hin. destruct (Hw' uid' feeds Hf) as [_ Hall].
    rewrite Forall_forall in Hall. by apply http_url_title, Hall.
  - intros n Hn. split.
    + apply rss_add_finish_added in Hn as (_ & (data & Hdata & Hne & <-) & _).
      apply fetch_feed_length in Hdata. destruct data; [done|]. simpl in *. lia.
    + rewrite rss_add_finish_store, Hn. by rewrite lookup_insert_eq.
  - intros n. apply rss_add_finish_added.
  - intros n Hn. by rewrite rss_add_finish_store, Hn.
  - intros Hn. rewrite rss_add_finish_store.
    destruct ((rss_add_finish text uid get feeds_of).2) as [| | |n] eqn:Hr; try done.
    by destruct (Hn n).
Qed.

Definition habr_feed : gmap Z (list str) :=
  {[ 7 := [lit "https://habr.com/ru/rss/all/all/"] ]}.

Definition lenta_add : gmap Z (list str) * reply :=
  rss_add_finish (lit " http://lenta.ru/rss ") 7
    (fun _ => Http 200 [NewsFacts.entry "a" 1]) habr_feed.

Lemma feeds_stay_well_kept_witness :
  well_kept habr_feed
  /\ well_kept lenta_add.1
  /\ (forall uid' feeds url,
        lenta_add.1 !! uid' = Some feeds -> url ∈ feeds -> is_Some (feed_title url))
  /\ (forall n, lenta_add.2 = Added n ->
        (1 <= n <= 10)%nat
        /\ lenta_add.1 !! 7
           = Some (default [] (habr_feed !! 7) ++ [strip (lit " http://lenta.ru/rss ")]))
  /\ (forall n, lenta_add.2 = Added n <->
        (http_url (strip (lit " http://lenta.ru/rss ")) = true
         /\ (exists data,
               fetch_feed (fun _ => Http 200 [NewsFacts.entry "a" 1])
                 (strip (lit " http://lenta.ru/rss ")) = Some data
               /\ data <> [] /\ length data = n)
         /\ strip (lit " http://lenta.ru/rss ") ∉ default [] (habr_feed !! 7)))
  /\ (forall n, lenta_add.2 = Added n ->
        lenta_add.1
        = <[7 := default [] (habr_feed !! 7) ++ [strip (lit " http://lenta.ru/rss ")]]>
            habr_feed)
  /\ ((forall n, lenta_add.2 <> Added n) -> lenta_add.1 = habr_feed).
Proof.
  assert (well_kept habr_feed) as Hw.
  { apply map_Forall_singleton. split; [apply NoDup_singleton|].
    constructor; [reflexivity | constructor]. }
  split; [exact Hw|].
  exact (feeds_stay_well_kept (lit " http://lenta.ru/rss ") 7
           (fun _ => Http 200 [NewsFacts.entry "a" 1]) habr_feed Hw).
Defined.

(** One feed added, then the same feed again, a feed that answers 404, a
    feed with a date that [time.mktime] rejects, and a bad URL. *)
Example adding_feeds :
  lenta_add
  = ({[ 7 := [lit "https://habr.com/ru/rss/all/all/"; lit "http://lenta.ru/rss"] ]},
     Added 1)
  /\ rss_add_finish (lit "http://lenta.ru/rss") 7
       (fun _ => Http 200 [NewsFacts.entry "a" 1]) lenta_add.1
     = (lenta_add.1, Duplicate)
  /\ rss_add_finish (lit "http://lenta.ru/rss") 7 (fun _ => Http 404 []) habr_feed
     = (habr_feed, NoData)
  /\ rss_add_finish (lit "http://lenta.ru/rss") 7
       (fun _ => Http 200 [{| e_title := None; e_link := None; e_published := None;
                              e_published_parsed := Some MktimeError |}]) habr_feed
     = (habr_feed, NoData)
  /\ rss_add_finish (lit "lenta.ru/rss") 7
       (fun _ => Http 200 [NewsFacts.entry "a" 1]) habr_feed
     = (habr_feed, BadUrl).
Proof. vm_compute. by repeat split. Qed.

(** The host is the title: what [cb_read_rss] shows for two stored feeds. *)
Example feed_titles :
  feed_title (lit "https://habr.com/ru/rss/all/all/") = Some (lit "habr.com")
  /\ feed_title (lit "http://") = Some []
  /\ feed_title (lit "ftp:/x") = None.
Proof. by repeat split. Qed.

End RssFeeds.
